(** * PlotTools.py: loading, aggregating and summarising repeated runs

    A shallow embedding of [src/PlotTools.py].  The four functions that
    load and aggregate run files ([load_results], [load_directory],
    [aggregate_results], [summarize_directory]) are translated line by
    line; the library calls they make (NumPy, [glob], [re], [os.path],
    [str.format]) are modelled next to them, each specialised to the way
    the script calls it.  The three plotting functions ([plot_results],
    [set_labels], [set_tick_style]) are translated as the sequence of
    calls they make into matplotlib.

    - A run file is a one-dimensional time series: [np.loadtxt] either
      returns a 1-D array (a list of numbers) or raises.  Files for
      which it returns a 0-d or a 2-D array (a single number, several
      columns) are outside the model.
    - Sums along axis 0 are taken row after row, the order in which
      NumPy adds the rows of an array that has two or more columns.
    - Numbers are abstract over a [Scalar] interface, the way NumPy code
      is generic in its dtype.  The program itself runs on IEEE binary64
      ([float64], the dtype [np.loadtxt] produces); the real numbers give
      the exact-arithmetic reading of the same code.
    - Effects are explicit: every file read, printed line, yielded pair
      and written file is recorded in an event log, exceptions are
      values, and the unbounded [while True] loop takes fuel.
    - Paths are POSIX paths.  A run reads the files that are present
      when it starts; the files [np.savetxt] writes are recorded in the
      log and are not read back, so the log is that of the script for
      a run that reads none of the files it has written. *)

From Stdlib Require Import ZArith List Ascii String Floats Uint63 Reals Lia.
From stdpp Require Import base gmap list strings pretty.

(** ** Numbers *)

(** The arithmetic NumPy performs on the elements of an array. *)
Class Scalar (A : Type) := {
  zero : A;                 (* the identity [np.add.reduce] starts from *)
  add : A -> A -> A;        (* np.add *)
  subtract : A -> A -> A;   (* np.subtract *)
  multiply : A -> A -> A;   (* np.multiply *)
  true_divide : A -> A -> A;(* np.true_divide *)
  sqrt : A -> A;            (* np.sqrt *)
  of_count : nat -> A       (* an element count, or [float(n)], as a number *)
}.

(** IEEE 754 binary64, the dtype of the arrays the script handles.  A
    count is converted as [float(n)] does (exactly below [2^53], rounded
    to nearest above); counts stay far below [2^63]. *)
#[export] Instance float64 : Scalar float := {
  zero := 0%float;
  add := PrimFloat.add;
  subtract := PrimFloat.sub;
  multiply := PrimFloat.mul;
  true_divide := PrimFloat.div;
  sqrt := PrimFloat.sqrt;
  of_count n := PrimFloat.of_uint63 (Uint63.of_Z (Z.of_nat n))
}.

(** Exact arithmetic on the real numbers. *)
#[export] Instance real : Scalar R := {
  zero := 0%R;
  add := Rplus;
  subtract := Rminus;
  multiply := Rmult;
  true_divide := Rdiv;
  sqrt := R_sqrt.sqrt;
  of_count := INR
}.

(** The laws of exact arithmetic that aggregating identical rows relies
    on.  The reals satisfy them; [float64] does not: rounding breaks
    distributivity and the cancellation of a division, and infinities
    break [x - x = 0]. *)
Class ExactArith (A : Type) `{Scalar A} : Prop := {
  add_zero_l : forall x : A, add zero x = x;
  multiply_distributes : forall x y z : A,
    multiply (add x y) z = add (multiply x z) (multiply y z);
  multiply_zero_l : forall x : A, multiply zero x = zero;
  multiply_one_l : forall x : A, multiply (of_count 1) x = x;
  of_count_zero : of_count 0 = zero;
  of_count_succ : forall n, of_count (S n) = add (of_count n) (of_count 1);
  divide_cancels : forall n (x : A),
    true_divide (multiply (of_count (S n)) x) (of_count (S n)) = x;
  divide_zero_l : forall x : A, true_divide zero x = zero;
  subtract_diag : forall x : A, subtract x x = zero;
  sqrt_zero : sqrt zero = zero
}.

(** Sums that do not depend on the order of their terms.  On [float64]
    addition commutes, but rounding makes it non-associative. *)
Class ExactSum (A : Type) `{Scalar A} : Prop := {
  add_commutes : forall x y : A, add x y = add y x;
  add_associates : forall x y z : A, add x (add y z) = add (add x y) z
}.

Section Numpy.
Context {A : Type} `{Scalar A}.

(** A 2-D array is the list of its rows (axis 0), each row a list
    (axis 1); [load_results] builds it with one row per run.
    [np_size0] is [np.size(a, axis=0)]. *)
Definition np_size0 (a : list (list A)) : nat := length a.

(** Every row of [a] has [t] entries: [a] has shape [(len a, t)]. *)
Definition rectangular (t : nat) (a : list (list A)) : bool :=
  forallb (fun row => Nat.eqb (length row) t) a.

(** [np.add.reduce(a, axis=0)]: the accumulator starts at the identity
    and the rows are added to it one after the other. *)
Definition add_reduce0 (t : nat) (a : list (list A)) : list A :=
  fold_left (zip_with add) a (replicate t zero).

(** [a.mean(axis=0)]: the sum along axis 0 divided by the row count. *)
Definition np_mean0 (t : nat) (a : list (list A)) : list A :=
  map (fun s => true_divide s (of_count (length a))) (add_reduce0 t a).

(** [a.std(axis=0)], as NumPy's [_var] and [_std] compute it with the
    default [ddof=0]: subtract the mean from every row, square, take
    the mean of the squares along axis 0, and the square root. *)
Definition np_std0 (t : nat) (a : list (list A)) : list A :=
  let arrmean := np_mean0 t a in
  let x := map (fun row => zip_with subtract row arrmean) a in
  let x := map (map (fun d => multiply d d)) x in
  map sqrt (map (fun s => true_divide s (of_count (length a))) (add_reduce0 t x)).

(** [np.add.accumulate] on one row: running sums from the left, the
    first entry copied. *)
Fixpoint accumulate_from (acc : A) (row : list A) : list A :=
  match row with
  | [] => []
  | x :: row' => add acc x :: accumulate_from (add acc x) row'
  end.

Definition accumulate (row : list A) : list A :=
  match row with
  | [] => []
  | x :: row' => x :: accumulate_from x row'
  end.

(** [a.cumsum(axis=1)]. *)
Definition np_cumsum1 (a : list (list A)) : list (list A) := map accumulate a.

(** [a.T] for a 2-D array. *)
Fixpoint np_transpose (a : list (list A)) : list (list A) :=
  match a with
  | [] => []
  | [row] => map (fun x => [x]) row
  | row :: rest => zip_with cons row (np_transpose rest)
  end.

End Numpy.

(** ** Strings and paths *)

(** A Python [str] is the list of its characters; literals coerce. *)
Coercion list_ascii_of_string : string >-> list.

Definition newline : ascii := ascii_of_nat 10.

(** [str(n)] for a non-negative [int]. *)
Definition decimal (n : nat) : list ascii := pretty n.

Fixpoint starts_with (prefix s : list ascii) : bool :=
  match prefix, s with
  | [], _ => true
  | _ :: _, [] => false
  | c :: prefix', d :: s' => bool_decide (c = d) && starts_with prefix' s'
  end.

Definition ends_with (suffix s : list ascii) : bool :=
  starts_with (reverse suffix) (reverse s).

(** [s[:-n]]. *)
Definition drop_last (n : nat) (s : list ascii) : list ascii :=
  take (length s - n) s.

Fixpoint take_while (p : ascii -> bool) (s : list ascii) : list ascii :=
  match s with
  | [] => []
  | c :: s' => if p c then c :: take_while p s' else []
  end.

Fixpoint drop_while (p : ascii -> bool) (s : list ascii) : list ascii :=
  match s with
  | [] => []
  | c :: s' => if p c then drop_while p s' else s
  end.

Definition is_char (c d : ascii) : bool := bool_decide (c = d).

(** [c in s]. *)
Definition has_char (c : ascii) (s : list ascii) : bool := existsb (is_char c) s.

(** [s.split(c)]. *)
Fixpoint split_on (c : ascii) (s : list ascii) : list (list ascii) :=
  match s with
  | [] => [[]]
  | x :: s' =>
      if is_char c x then [] :: split_on c s'
      else match split_on c s' with
           | piece :: pieces => (x :: piece) :: pieces
           | [] => [[x]]
           end
  end.

(** [os.path.join(a, b)] on POSIX. *)
Definition os_path_join (a b : list ascii) : list ascii :=
  if starts_with "/" b then b
  else if bool_decide (a = []) || ends_with "/" a then a ++ b
  else a ++ "/" ++ b.

(** [os.path.basename(p)]: what follows the last slash. *)
Definition os_path_basename (p : list ascii) : list ascii :=
  reverse (take_while (fun c => negb (is_char "/" c)) (reverse p)).

(** [os.path.split(p)]: the head loses its trailing slashes unless it
    consists of slashes only. *)
Definition os_path_split (p : list ascii) : list ascii * list ascii :=
  let tail := os_path_basename p in
  let head := drop_last (length tail) p in
  (if forallb (is_char "/") head then head
   else reverse (drop_while (is_char "/") (reverse head)),
   tail).

(** What [os.path.join(d, name)] puts before a relative [name]. *)
Definition dir_prefix (d : list ascii) : list ascii :=
  if bool_decide (d = []) || ends_with "/" d then d else d ++ "/".

(** The directory [glob.iglob] lists for the argument of
    [load_directory]: the head of the joined pathname. *)
Definition glob_directory (directory : list ascii) : list ascii :=
  (os_path_split (os_path_join directory "*-0.txt")).1.

(** No newline and no brace: the characters that [re.sub] and
    [str.format] treat specially. *)
Definition plain (s : list ascii) : bool :=
  negb (has_char newline s || has_char "{" s || has_char "}" s).

(** [glob.has_magic]. *)
Definition has_magic (s : list ascii) : bool :=
  existsb (fun c => is_char "*" c || is_char "?" c || is_char "[" c) s.

(** [glob._ishidden]. *)
Definition ishidden (name : list ascii) : bool := starts_with "." name.

(** [fnmatch] against the pattern [*-0.txt] on POSIX: the star matches
    any characters, the rest is literal. *)
Definition fnmatch_run0 (name : list ascii) : bool := ends_with "-0.txt" name.

(** [re.sub] of the pattern "^(.*-)0(\.txt)$" by the template "\1{}\2"
    in [pathname].  The pattern can
    only match at the start; [.] does not match a newline and [$]
    matches at the end or just before a final newline, so there is a
    match exactly when [pathname], one final newline apart, has no
    newline and ends in [-0.txt].  The [0] is then replaced by [{}]. *)
Definition re_sub_run_number (pathname : list ascii) : list ascii :=
  let final := if ends_with [newline] pathname then [newline] else [] in
  let line := drop_last (length final) pathname in
  if ends_with "-0.txt" line && negb (has_char newline line)
  then drop_last 5 line ++ "{}.txt" ++ final
  else pathname.

(** One candidate match of [-0.txt] with [re.I]: a dash, a zero, any
    character but a newline, then [txt] in either case. *)
Definition matches_run0_suffix (s : list ascii) : bool :=
  match s with
  | c1 :: c2 :: c3 :: c4 :: c5 :: c6 :: _ =>
      is_char "-" c1 && is_char "0" c2 && negb (is_char newline c3)
      && (is_char "t" c4 || is_char "T" c4)
      && (is_char "x" c5 || is_char "X" c5)
      && (is_char "t" c6 || is_char "T" c6)
  | _ => false
  end.

(** The group of the pattern [^(G)-0.txt], where [G] is [.*], on [s]:
    greedy, so the longest newline-free prefix that is followed by a
    candidate match. *)
Fixpoint match_basename (s : list ascii) : option (list ascii) :=
  match s with
  | [] => None
  | c :: s' =>
      match (if is_char newline c then None else match_basename s') with
      | Some group => Some (c :: group)
      | None => if matches_run0_suffix s then Some [] else None
      end
  end.

(** [re.findall] of the pattern [^(G)-0.txt], where [G] is [.*], in
    [name] with [flags=re.I]: the pattern is anchored at the start, so
    there is at most one match, and the result lists its group. *)
Definition re_findall_basename (name : list ascii) : list (list ascii) :=
  match match_basename name with
  | Some group => [group]
  | None => []
  end.

(** ** Exceptions and outcomes *)

Inductive exn :=
  | FileNotFoundError
  | PermissionError
  | IsADirectoryError
  | ValueError
  | IndexError
  | KeyError
  | AxisError.

(** [isinstance(e, IOError)].  [IOError] is [OSError] in Python 3, whose
    subclasses include the three file errors; in Python 2 [open] raises
    [IOError] itself for all three. *)
Definition is_IOError (e : exn) : bool :=
  match e with
  | FileNotFoundError | PermissionError | IsADirectoryError => true
  | ValueError | IndexError | KeyError | AxisError => false
  end.

(** How a computation ends: it returns, raises, or is still running
    when the fuel is spent. *)
Inductive outcome (R : Type) :=
  | Ret (r : R)
  | Raise (e : exn)
  | Diverge.
Arguments Ret {R} r.
Arguments Raise {R} e.
Arguments Diverge {R}.

(** ** [str.format] with one positional [int] argument *)

(** How the replacement fields seen so far were numbered. *)
Inductive numbering := NumberingUnset | NumberingAuto (next : nat) | NumberingManual.

Inductive format_state :=
  | InText                              (* literal text *)
  | AfterOpen                           (* just read a left brace *)
  | AfterClose                          (* just read a right brace *)
  | InFieldName (name_rev : list ascii) (* inside a replacement field *).

Inductive format_result :=
  | Formatted (s : list ascii)
  | FormatError (e : exn)
  | FormatOther.  (* a field with a conversion, a format spec or a lookup *)

Definition is_digit (c : ascii) : bool :=
  (48 <=? nat_of_ascii c) && (nat_of_ascii c <=? 57).

Definition field_index (name : list ascii) : nat :=
  fold_left (fun acc c => 10 * acc + (nat_of_ascii c - 48)) name 0.

(** The characters that start a conversion ([!]), a format spec ([:]),
    an attribute ([.]) or an index ([[]) inside a replacement field. *)
Definition starts_lookup (c : ascii) : bool :=
  is_char "!" c || is_char ":" c || is_char "." c || is_char "[" c.

(** One replacement field [{name}] applied to the argument tuple [(n,)]:
    an empty name takes the next automatic index, digits are an explicit
    index, anything else is a keyword (and there are none).  Switching
    between automatic and explicit numbering is a [ValueError]; only
    index 0 exists. *)
Definition render_field (n : nat) (num : numbering) (name : list ascii)
  : exn + (list ascii * numbering) :=
  match name with
  | [] =>
      match num with
      | NumberingManual => inl ValueError
      | NumberingUnset => inr (decimal n, NumberingAuto 1)
      | NumberingAuto 0 => inr (decimal n, NumberingAuto 1)
      | NumberingAuto (S _) => inl IndexError
      end
  | _ :: _ =>
      if forallb is_digit name then
        match num with
        | NumberingAuto _ => inl ValueError
        | _ => if Nat.eqb (field_index name) 0
               then inr (decimal n, NumberingManual) else inl IndexError
        end
      else inl KeyError
  end.

(** The scan of the format string, left to right: doubled braces are
    literal braces, a single right brace or an unfinished field is a
    [ValueError]. *)
Fixpoint format_scan (n : nat) (num : numbering) (st : format_state)
    (out_rev : list ascii) (s : list ascii) : format_result :=
  match s with
  | [] =>
      match st with
      | InText => Formatted (reverse out_rev)
      | _ => FormatError ValueError
      end
  | c :: s' =>
      match st with
      | InText =>
          if is_char "{" c then format_scan n num AfterOpen out_rev s'
          else if is_char "}" c then format_scan n num AfterClose out_rev s'
          else format_scan n num InText (c :: out_rev) s'
      | AfterClose =>
          if is_char "}" c then format_scan n num InText (c :: out_rev) s'
          else FormatError ValueError
      | AfterOpen =>
          if is_char "{" c then format_scan n num InText (c :: out_rev) s'
          else if is_char "}" c then
            match render_field n num [] with
            | inl e => FormatError e
            | inr (text, num') =>
                format_scan n num' InText (reverse text ++ out_rev) s'
            end
          else if starts_lookup c then FormatOther
          else format_scan n num (InFieldName [c]) out_rev s'
      | InFieldName name_rev =>
          if is_char "{" c then FormatError ValueError
          else if is_char "}" c then
            match render_field n num (reverse name_rev) with
            | inl e => FormatError e
            | inr (text, num') =>
                format_scan n num' InText (reverse text ++ out_rev) s'
            end
          else if starts_lookup c then FormatOther
          else format_scan n num (InFieldName (c :: name_rev)) out_rev s'
      end
  end.

(** ** The world the script runs in *)

Section Program.
Context {A : Type} `{Scalar A}.

(** What is stored under a path, as [np.loadtxt] sees it. *)
Inductive file :=
  | Table (run : list A)  (* a numeric table: [np.loadtxt] returns this
                             1-D array *)
  | Unreadable            (* exists, reading is not permitted *)
  | Malformed             (* readable, not a numeric table *)
  | Directory.

Record world := {
  (* the files, by path; a path that is not bound does not exist *)
  files : gmap (list ascii) file;
  (* the names [os.scandir] lists in a directory, in its order *)
  listdir : list ascii -> list (list ascii);
  (* [glob.iglob] of a directory part that has magic characters *)
  glob_dirs : list ascii -> list (list ascii);
  (* [pattern.format(n)] for a pattern with a conversion, a format spec
     or a lookup in one of its fields *)
  format_other : list ascii -> nat -> exn + list ascii;
  (* the error, if any, of opening a path for writing *)
  write_error : list ascii -> option exn
}.

(** Everything the script does that can be observed from outside. *)
Inductive event :=
  | EvRead (path : list ascii)    (* [np.loadtxt(path)] was called *)
  | EvPrint (line : list ascii)
  | EvYield (basename : list ascii) (results : list (list A))
  | EvWrite (path : list ascii) (header : list (list ascii)) (rows : list (list A)).

(** A computation: the events it produced and how it ended. *)
Definition prog (R : Type) : Type := list event * outcome R.

Definition ret {R} (r : R) : prog R := ([], Ret r).
Definition raise {R} (e : exn) : prog R := ([], Raise e).
Definition diverge {R} : prog R := ([], Diverge).
Definition emit (ev : event) : prog unit := ([ev], Ret tt).

Definition bind {R S} (m : prog R) (k : R -> prog S) : prog S :=
  match m with
  | (log, Ret r) => let '(log', o) := k r in (log ++ log', o)
  | (log, Raise e) => (log, Raise e)
  | (log, Diverge) => (log, Diverge)
  end.

(** [prog] is a monad; the notations [x ← m; k] and [m ;; k] are the
    library's. *)
#[export] Instance prog_ret : MRet prog := @ret.
#[export] Instance prog_bind : MBind prog := fun R S k m => bind m k.

(** [try: body / except IOError: ...]: [None] when an [IOError] was
    caught; any other exception goes on. *)
Definition except_IOError {R} (body : prog R) : prog (option R) :=
  match body with
  | (log, Ret r) => (log, Ret (Some r))
  | (log, Raise e) => (log, if is_IOError e then Ret None else Raise e)
  | (log, Diverge) => (log, Diverge)
  end.

(** [for x in xs: body(x)]. *)
Fixpoint for_each {X} (xs : list X) (body : X -> prog unit) : prog unit :=
  match xs with
  | [] => ret tt
  | x :: xs' => body x ;; for_each xs' body
  end.

Definition print (line : list ascii) : prog unit := emit (EvPrint line).

(** [file_name.format(run_number)]. *)
Definition str_format (w : world) (pattern : list ascii) (n : nat)
  : prog (list ascii) :=
  match format_scan n NumberingUnset InText [] pattern with
  | Formatted s => ret s
  | FormatError e => raise e
  | FormatOther =>
      match format_other w pattern n with
      | inl e => raise e
      | inr s => ret s
      end
  end.

(** [np.loadtxt(path)]. *)
Definition np_loadtxt (w : world) (path : list ascii) : prog (list A) :=
  emit (EvRead path) ;;
  match files w !! path with
  | None => raise FileNotFoundError
  | Some (Table run) => ret run
  | Some Unreadable => raise PermissionError
  | Some Malformed => raise ValueError
  | Some Directory => raise IsADirectoryError
  end.

(** What [np.loadtxt] raises on a path, if it raises. *)
Definition loadtxt_error (f : option file) : option exn :=
  match f with
  | None => Some FileNotFoundError
  | Some (Table _) => None
  | Some Unreadable => Some PermissionError
  | Some Malformed => Some ValueError
  | Some Directory => Some IsADirectoryError
  end.

(** The pairs a log says were yielded, in order. *)
Definition yields (log : list event) : list (list ascii * list (list A)) :=
  omap (fun ev => match ev with
                  | EvYield basename results => Some (basename, results)
                  | _ => None
                  end) log.




(** [np.array(results)] for a list of 1-D arrays: the rows are stacked.
    Rows of unequal length are kept as they are, as the array of arrays
    that NumPy builds before version 1.24; later versions raise here
    what [aggregate_results] raises for such rows in the model. *)
Definition np_array (results : list (list A)) : list (list A) := results.

(** The comment lines [np.savetxt] writes for [header]: every line of
    it after the comment prefix. *)
Definition header_lines (header : list ascii) : list (list ascii) :=
  match header with
  | [] => []
  | _ :: _ => map (fun line => "# " ++ line) (split_on newline header)
  end.

(** [np.savetxt(fname, X, header=header)], when it completes: the
    comment lines, then one line per row of [X].  The call fails when
    [fname] cannot be opened for writing, and then no file is made.  A
    failure after the file was opened, which leaves a truncated file,
    and what a later [np.loadtxt] finds in a written file are outside
    the model (see [reads_own_output]). *)
Definition np_savetxt (w : world) (fname : list ascii) (X : list (list A))
    (header : list ascii) : prog unit :=
  match write_error w fname with
  | Some e => raise e
  | None => emit (EvWrite fname (header_lines header) X)
  end.

(** [glob._glob1(dirname, pattern)] for the pattern [*-0.txt]: the
    names in [dirname] that are not hidden and match. *)
Definition glob1 (w : world) (dirname : list ascii) : list (list ascii) :=
  filter (fun name => negb (ishidden name) && fnmatch_run0 name)
         (listdir w dirname).

(** [glob.iglob(pathname)] for a pathname whose last component is the
    pattern [*-0.txt]: the matching names of each directory the head
    stands for, joined to the directory. *)
Definition glob_iglob (w : world) (pathname : list ascii) : list (list ascii) :=
  let '(dirname, _) := os_path_split pathname in
  let dirs := if has_magic dirname then glob_dirs w dirname else [dirname] in
  flat_map (fun d => map (os_path_join d) (glob1 w d)) dirs.

(** ** The script *)

(** The [while True] loop of [load_results]; [run_number] and [results]
    are its variables. *)
Fixpoint load_results_loop (fuel : nat) (w : world) (file_name : list ascii)
    (run_number : nat) (results : list (list A)) : prog (nat * list (list A)) :=
  match fuel with
  | O => diverge
  | S fuel' =>
      loaded ← except_IOError
                 (path ← str_format w file_name run_number;
                  np_loadtxt w path);
      match loaded with
      | Some run =>
          load_results_loop fuel' w file_name (S run_number) (results ++ [run])
      | None => ret (run_number, results)
      end
  end.

Definition load_results (fuel : nat) (w : world) (file_name : list ascii)
  : prog (list (list A)) :=
  '(run_number, results) ← load_results_loop fuel w file_name 0 [];
  print ("Loaded " ++ decimal run_number ++ " runs") ;;
  ret (np_array results).

(** One turn of the generator [load_directory], up to its [yield]. *)
Definition load_directory_item (fuel : nat) (w : world) (pathname : list ascii)
  : prog (list ascii * list (list A)) :=
  let pattern := re_sub_run_number pathname in
  match re_findall_basename (os_path_basename pathname) with
  | [basename] =>
      print ("Loading " ++ basename) ;;
      results ← load_results fuel w pattern;
      emit (EvYield basename results) ;;
      ret (basename, results)
  | _ => raise ValueError
  end.

(** [for item in load_directory(directory): consumer(item)].  The
    generator runs up to a [yield], the loop body consumes the pair,
    and the generator resumes. *)
Definition load_directory (fuel : nat) (w : world) (directory : list ascii)
    (consumer : list ascii * list (list A) -> prog unit) : prog unit :=
  for_each (glob_iglob w (os_path_join directory "*-0.txt"))
    (fun pathname =>
       item ← load_directory_item fuel w pathname;
       consumer item).

(** [aggregate_results] on the array of runs.  The array arithmetic is
    defined on rectangular arrays.  An empty list of runs is a 1-D
    array, for which [cumsum(axis=1)] raises; rows of unequal length do
    not form a 2-D array, and NumPy raises when it adds them (the class
    of that exception plays no role below). *)
Definition aggregate_results (results : list (list A))
  : outcome (list A * list A * list A) :=
  match results with
  | [] => Raise AxisError      (* a 1-D array of shape (0,) has no axis 1 *)
  | row :: _ =>
      let t := length row in
      if rectangular t results then
        let nresults := np_size0 results in
        let results_mean := np_mean0 t results in
        let results_stderr :=
          map (fun s => true_divide s (sqrt (of_count nresults)))
              (np_std0 t results) in
        let cumresults_stderr :=
          map (fun s => true_divide s (sqrt (of_count nresults)))
              (np_std0 t (np_cumsum1 results)) in
        Ret (results_mean, results_stderr, cumresults_stderr)
      else Raise ValueError    (* rows of unequal length cannot be added *)
  end.

(** The body of the loop of [summarize_directory]. *)
Definition summarize_item (w : world) (output_directory : list ascii)
    (item : list ascii * list (list A)) : prog unit :=
  let '(name, results) := item in
  let fname := os_path_join output_directory (name ++ ".txt") in
  match aggregate_results results with
  | Ret (results_mean, results_stderr, cumresults_stderr) =>
      np_savetxt w fname
        (np_transpose [results_mean; results_stderr; cumresults_stderr])
        (name ++ " (" ++ decimal (np_size0 results) ++ " runs)")
  | Raise e => raise e
  | Diverge => diverge
  end.

Definition summarize_directory (fuel : nat) (w : world) (directory : list ascii)
    (output_directory : option (list ascii)) : prog unit :=
  let output_directory := default directory output_directory in
  load_directory fuel w directory (summarize_item w output_directory).

End Program.

Arguments file : clear implicits.
Arguments world : clear implicits.
Arguments event : clear implicits.
Arguments prog : clear implicits.

(** ** Plotting

    [plot_results], [set_labels] and [set_tick_style] draw on
    matplotlib's global plotting context.  The calls that reach it are
    recorded in the order they are made; what matplotlib renders from
    them is not modelled.  [mean] and [stderr] are 1-D arrays, as
    [aggregate_results] returns them. *)

Section Plotting.
Context {A : Type} `{Scalar A}.

(** A binary ufunc on two 1-D arrays, with NumPy's broadcasting: arrays
    of equal length are combined element by element, an array of one
    element is stretched to the length of the other, and any other
    pair of lengths is an error. *)
Definition np_broadcast (f : A -> A -> A) (a b : list A) : outcome (list A) :=
  if Nat.eqb (length a) (length b) then Ret (zip_with f a b)
  else match a, b with
       | [x], _ => Ret (map (f x) b)
       | _, [y] => Ret (map (fun x => f x y) a)
       | _, _ => Raise ValueError
       end.

(** [a[i]] for a 1-D array and an [int]: a negative index counts from
    the end, and an index outside [-len(a) .. len(a)-1] is an error. *)
Definition np_getitem (a : list A) (i : Z) : outcome A :=
  let n := Z.of_nat (length a) in
  let j := if (i <? 0)%Z then (i + n)%Z else i in
  if (0 <=? j)%Z && (j <? n)%Z then
    match a !! Z.to_nat j with
    | Some x => Ret x
    | None => Raise IndexError
    end
  else Raise IndexError.

(** The literal [2.5]: five halves, which binary64 holds exactly. *)
Definition two_and_a_half : A := true_divide (of_count 5) (of_count 2).

(** The keyword [va] of [plt.text]. *)
Inductive valign := Bottom | Top.

(** A call into [matplotlib.pyplot], with the arguments that vary; the
    styling keywords are the constants of the call site. *)
Inductive plot_call :=
  | FillBetween (x : list nat) (y1 y2 : list A) (* color, edgecolor: moccasin *)
  | Plot (y : list A)                           (* color black, lw 2 *)
  | Text (x : Z) (y : A) (s : list ascii) (va : valign)
                                                (* ha right, size 10, serif *)
  | XLabel (s : list ascii)                     (* size 10, serif, ha right, x 1 *)
  | YLabel (s : list ascii)                     (* horizontal, top right, y 1 *)
  | XTicks                                      (* size 9, serif *)
  | YTicks.

(** The plotting context: the error, if any, with which matplotlib
    refuses a call. *)
Record pyplot := {
  call_error : plot_call -> option exn
}.

(** A computation that draws: the calls that were made and accepted,
    and how it ended. *)
Definition drawing (R : Type) : Type := list plot_call * outcome R.

Definition drawing_bind {R S} (m : drawing R) (k : R -> drawing S) : drawing S :=
  match m with
  | (calls, Ret r) => let '(calls', o) := k r in (calls ++ calls', o)
  | (calls, Raise e) => (calls, Raise e)
  | (calls, Diverge) => (calls, Diverge)
  end.

(** A computation on arrays, which draws nothing. *)
Definition compute {R} (o : outcome R) : drawing R := ([], o).

(** One call [plt.f(...)]. *)
Definition plt (py : pyplot) (c : plot_call) : drawing unit :=
  match call_error py c with
  | Some e => ([], Raise e)
  | None => ([c], Ret tt)
  end.

Local Notation "x <~ m ; k" := (drawing_bind m (fun x => k))
  (at level 20, m at level 100, k at level 200, only parsing).
Local Notation "m ;;; k" := (drawing_bind m (fun _ => k))
  (at level 100, k at level 200, right associativity, only parsing).

Definition plot_results (py : pyplot) (mean stderr : list A)
    (label : list ascii) (above : bool) : drawing unit :=
  let twice := map (multiply (of_count 2)) in
  upper <~ compute (np_broadcast add mean (twice stderr));
  lower <~ compute (np_broadcast subtract mean (twice stderr));
  plt py (FillBetween (seq 0 (length mean)) upper lower) ;;;
  plt py (Plot mean) ;;;
  let xposition := (Z.of_nat (length mean) - 20)%Z in
  m <~ compute (np_getitem mean xposition);
  s <~ compute (np_getitem stderr xposition);
  let '(yposition, va) :=
    if above then (add m (multiply two_and_a_half s), Bottom)
    else (subtract m (multiply two_and_a_half s), Top) in
  plt py (Text xposition yposition label va).

Definition set_labels (py : pyplot) (xtext ytext : list ascii) : drawing unit :=
  plt py (XLabel xtext) ;;;
  plt py (YLabel ytext).

Definition set_tick_style (py : pyplot) : drawing unit :=
  plt py XTicks ;;;
  plt py YTicks.

End Plotting.

Arguments plot_call : clear implicits.
Arguments pyplot : clear implicits.
Arguments drawing : clear implicits.

(** ** The statistics the aggregated file is meant to hold

    These definitions follow the words of the specification, one time
    step at a time; the theorems below compare them with what
    [aggregate_results] computes on whole arrays. *)

Section Statistics.
Context {A : Type} `{Scalar A}.

(** The values of all runs at time step [t]. *)
Definition across_runs (t : nat) (results : list (list A)) : list A :=
  map (fun run => nth t run zero) results.

(** The sum of a sample, its terms added from the left. *)
Definition total (xs : list A) : A := fold_left add xs zero.

Definition mean_of (xs : list A) : A :=
  true_divide (total xs) (of_count (length xs)).

(** The standard deviation of a sample: the root of the mean squared
    deviation from the mean ([np.std] with its default [ddof=0]). *)
Definition std_of (xs : list A) : A :=
  sqrt (mean_of (map (fun x => multiply (subtract x (mean_of xs))
                                        (subtract x (mean_of xs))) xs)).

(** The standard error: the standard deviation divided by the square
    root of the sample size. *)
Definition stderr_of (xs : list A) : A :=
  true_divide (std_of xs) (sqrt (of_count (length xs))).

(** The cumulative sum of a run up to and including time step [t]. *)
Definition cumulative_sum (t : nat) (run : list A) : A :=
  fold_left add (take t (tail run)) (nth 0 run zero).

End Statistics.

(** ** Sample data *)

(** The binary64 numbers that [float] reads from the texts [0.1] and
    [0.3]. *)
Definition tenth : float := 0x1.999999999999ap-4%float.
Definition three_tenths : float := 0x1.3333333333333p-2%float.

(** Three identical runs. *)
Definition identical_runs : list (list float) := replicate 3 [tenth; 1%float].

(** Three runs, and the same runs in another order. *)
Definition some_runs : list (list float) :=
  [[tenth; 2]; [three_tenths; 2]; [1; 2]]%float.
Definition some_runs_permuted : list (list float) :=
  [[tenth; 2]; [1; 2]; [three_tenths; 2]]%float.

(** A world with one directory [d] that holds the given files, listed
    in the given order. *)
Definition world_of (names : list (list ascii))
    (content : gmap (list ascii) (file float)) : world float :=
  {| files := content;
     listdir := fun dirname => if bool_decide (dirname = "d") then names else [];
     glob_dirs := fun _ => [];
     format_other := fun _ _ => inl ValueError;
     write_error := fun _ => None |}.

(** Two runs [run-0.txt] and [run-1.txt] of one experiment, a run
    [late-1.txt] of another that has no run 0, and a file that is no
    run. *)
Definition two_runs : world float :=
  world_of ["run-0.txt" : list ascii; "run-1.txt" : list ascii;
            "late-1.txt" : list ascii; "notes.md" : list ascii]
    (<[("d/run-0.txt" : list ascii) := Table [1; 2]%float]>
       (<[("d/run-1.txt" : list ascii) := Table [3; 5]%float]>
          (<[("d/late-1.txt" : list ascii) := Table [7; 8]%float]>
             (<[("d/notes.md" : list ascii) := Malformed]> ∅)))).

(** The same, but [run-1.txt] may not be read. *)
Definition locked_run : world float :=
  world_of ["run-0.txt" : list ascii; "run-1.txt" : list ascii]
    (<[("d/run-0.txt" : list ascii) := Table [1; 2]%float]>
       (<[("d/run-1.txt" : list ascii) := Unreadable]> ∅)).

(** The same, but [run-1.txt] holds no numbers. *)
Definition broken_run : world float :=
  world_of ["run-0.txt" : list ascii; "run-1.txt" : list ascii]
    (<[("d/run-0.txt" : list ascii) := Table [1; 2]%float]>
       (<[("d/run-1.txt" : list ascii) := Malformed]> ∅)).

(** A run whose files are hidden. *)
Definition hidden_run : world float :=
  world_of [".seed-0.txt" : list ascii]
    (<[("d/.seed-0.txt" : list ascii) := Table [1; 2]%float]> ∅).

(** Two runs, the first of which holds no numbers. *)
Definition broken_first : world float :=
  world_of ["a-0.txt" : list ascii; "b-0.txt" : list ascii]
    (<[("d/a-0.txt" : list ascii) := Malformed]>
       (<[("d/b-0.txt" : list ascii) := Table [1; 2]%float]> ∅)).

(** A run with braces in its name. *)
Definition braced_run : world float :=
  world_of ["x{y}-0.txt" : list ascii]
    (<[("d/x{y}-0.txt" : list ascii) := Table [1; 2]%float]> ∅).


(** An experiment whose first run file may not be read, although the
    second may. *)
Definition locked_first : world float :=
  world_of ["run-0.txt" : list ascii; "run-1.txt" : list ascii]
    (<[("d/run-0.txt" : list ascii) := Unreadable]>
       (<[("d/run-1.txt" : list ascii) := Table [3; 5]%float]> ∅)).

(** A directory with a newline in its name, and one run in it. *)
Definition two_lines : list ascii := "logs" ++ [newline] ++ "old".

Definition newline_directory : world float :=
  {| files := <[two_lines ++ "/run-0.txt" := Table [1; 2]%float]> ∅;
     listdir := fun dirname =>
                  if bool_decide (dirname = two_lines)
                  then ["run-0.txt" : list ascii] else [];
     glob_dirs := fun _ => [];
     format_other := fun _ _ => inl ValueError;
     write_error := fun _ => None |}.

(** A plotting context that accepts every call. *)
Definition accepting : pyplot float := {| call_error := fun _ => None |}.

(** A curve of twelve samples [0, 1, .., 11] with a standard error of
    one half everywhere, and its first three samples. *)
Definition curve_mean : list float := map of_count (seq 0 12).
Definition curve_stderr : list float := replicate 12 0.5%float.
Definition short_mean : list float := take 3 curve_mean.
Definition short_stderr : list float := take 3 curve_stderr.

(** The aggregated file of [two_runs]. *)
Definition two_runs_rows : list (list float) :=
  [[2; 0x1.6a09e667f3bccp-1; 0x1.6a09e667f3bccp-1];
   [3.5; 0x1.0f876ccdf6cd9p+0; 0x1.c48c6001f0abfp+0]]%float.

(** * Properties *)

(** ** Whole-array operations, one time step at a time *)

Section AggregateFacts.
Context {A : Type} `{Scalar A}.
Implicit Types (a : list (list A)) (row acc : list A) (t i : nat).

Lemma rectangular_Forall t a :
  rectangular t a = true <-> Forall (fun row => length row = t) a.
Proof.
  unfold rectangular. rewrite forallb_forall, Forall_forall.
  split; intros Hall row Hin.
  - apply Nat.eqb_eq, Hall, list_elem_of_In, Hin.
  - apply Nat.eqb_eq, Hall, list_elem_of_In, Hin.
Qed.

Lemma nth_lookup_Some row i x : row !! i = Some x -> nth i row zero = x.
Proof. intros Hx. rewrite nth_lookup, Hx. reflexivity. Qed.

Lemma fold_zip_add_length t a : forall acc,
  Forall (fun row => length row = t) a -> length acc = t ->
  length (fold_left (zip_with add) a acc) = t.
Proof.
  induction a as [|row a IH]; intros acc Hall Hacc; simpl; [exact Hacc|].
  inversion Hall; subst. apply IH; [assumption|].
  rewrite length_zip_with. lia.
Qed.

Lemma fold_zip_add_lookup t a : forall acc i x,
  Forall (fun row => length row = t) a -> acc !! i = Some x ->
  length acc = t ->
  fold_left (zip_with add) a acc !! i
  = Some (fold_left add (across_runs i a) x).
Proof.
  induction a as [|row a IH]; intros acc i x Hall Hx Hacc; simpl; [exact Hx|].
  inversion Hall as [|? ? Hrow Hrest]; subst.
  assert (Hi : i < length row) by (rewrite Hrow; eapply lookup_lt_Some, Hx).
  destruct (lookup_lt_is_Some_2 row i Hi) as [y Hy].
  rewrite (nth_lookup_Some _ _ _ Hy).
  apply IH; [assumption| |rewrite length_zip_with; lia].
  rewrite lookup_zip_with, Hx, Hy. reflexivity.
Qed.

Lemma add_reduce0_length t a :
  Forall (fun row => length row = t) a -> length (add_reduce0 t a) = t.
Proof.
  intros Hall. unfold add_reduce0.
  apply fold_zip_add_length; [exact Hall|apply length_replicate].
Qed.

Lemma add_reduce0_lookup t a i :
  Forall (fun row => length row = t) a -> i < t ->
  add_reduce0 t a !! i = Some (total (across_runs i a)).
Proof.
  intros Hall Hi. unfold add_reduce0, total.
  apply (fold_zip_add_lookup t); [assumption| |apply length_replicate].
  apply lookup_replicate_2, Hi.
Qed.

Lemma across_runs_length i a : length (across_runs i a) = length a.
Proof. apply length_map. Qed.

Lemma np_mean0_length t a :
  Forall (fun row => length row = t) a -> length (np_mean0 t a) = t.
Proof.
  intros Hall. unfold np_mean0. rewrite length_map.
  apply add_reduce0_length, Hall.
Qed.

Lemma np_mean0_lookup t a i :
  Forall (fun row => length row = t) a -> i < t ->
  np_mean0 t a !! i = Some (mean_of (across_runs i a)).
Proof.
  intros Hall Hi. unfold np_mean0, mean_of.
  rewrite list_lookup_fmap, (add_reduce0_lookup t a i Hall Hi), across_runs_length.
  reflexivity.
Qed.

(** Combining every row with a vector commutes with taking a time step. *)
Lemma across_runs_zip_with t a i (f : A -> A -> A) (v : list A) y :
  Forall (fun row => length row = t) a -> i < t -> v !! i = Some y ->
  across_runs i (map (fun row => zip_with f row v) a)
  = map (fun x => f x y) (across_runs i a).
Proof.
  intros Hall Hi Hy. unfold across_runs. rewrite !map_map.
  apply map_ext_Forall. eapply Forall_impl; [exact Hall|].
  intros row Hrow; simpl in Hrow |- *.
  assert (Hlt : i < length row) by lia.
  destruct (lookup_lt_is_Some_2 row i Hlt) as [x Hx].
  rewrite (nth_lookup_Some _ _ _ Hx).
  apply nth_lookup_Some. rewrite lookup_zip_with, Hx, Hy. reflexivity.
Qed.

Lemma across_runs_map t a i (f : A -> A) :
  Forall (fun row => length row = t) a -> i < t ->
  across_runs i (map (map f) a) = map f (across_runs i a).
Proof.
  intros Hall Hi. unfold across_runs. rewrite !map_map.
  apply map_ext_Forall. eapply Forall_impl; [exact Hall|].
  intros row Hrow; simpl in Hrow |- *.
  assert (Hlt : i < length row) by lia.
  destruct (lookup_lt_is_Some_2 row i Hlt) as [x Hx].
  rewrite (nth_lookup_Some _ _ _ Hx).
  apply nth_lookup_Some. rewrite list_lookup_fmap, Hx. reflexivity.
Qed.

Lemma np_std0_length t a :
  Forall (fun row => length row = t) a -> length (np_std0 t a) = t.
Proof.
  intros Hall. unfold np_std0. rewrite !length_map.
  apply add_reduce0_length.
  rewrite !Forall_map. eapply Forall_impl; [exact Hall|].
  intros row Hrow; simpl in Hrow |- *.
  rewrite length_map, length_zip_with, np_mean0_length by exact Hall. lia.
Qed.

Lemma np_std0_lookup t a i :
  Forall (fun row => length row = t) a -> i < t ->
  np_std0 t a !! i = Some (std_of (across_runs i a)).
Proof.
  intros Hall Hi. unfold np_std0, std_of.
  pose proof (np_mean0_lookup t a i Hall Hi) as Hmean.
  set (mu := mean_of (across_runs i a)) in *.
  assert (Hsub : Forall (fun row => length row = t)
                   (map (fun row => zip_with subtract row (np_mean0 t a)) a)).
  { rewrite Forall_map. eapply Forall_impl; [exact Hall|].
    intros row Hrow; simpl in Hrow |- *.
    rewrite length_zip_with, np_mean0_length by exact Hall. lia. }
  assert (Hsq : Forall (fun row => length row = t)
                  (map (map (fun d => multiply d d))
                     (map (fun row => zip_with subtract row (np_mean0 t a)) a))).
  { rewrite Forall_map. eapply Forall_impl; [exact Hsub|].
    intros row Hrow; simpl in Hrow |- *. rewrite length_map. exact Hrow. }
  rewrite !list_lookup_fmap, (add_reduce0_lookup t _ i Hsq Hi); simpl.
  rewrite (across_runs_map t _ i _ Hsub Hi).
  rewrite (across_runs_zip_with t a i subtract _ mu Hall Hi Hmean).
  rewrite map_map. unfold mean_of at 1.
  rewrite !length_map, across_runs_length. reflexivity.
Qed.

(** ** What [aggregate_results] returns on a rectangular array *)

Lemma aggregate_results_rectangular t a :
  a <> [] -> rectangular t a = true ->
  aggregate_results a
  = Ret (np_mean0 t a,
         map (fun s => true_divide s (sqrt (of_count (length a)))) (np_std0 t a),
         map (fun s => true_divide s (sqrt (of_count (length a))))
             (np_std0 t (np_cumsum1 a))).
Proof.
  intros Hne Hrect. destruct a as [|row a]; [congruence|].
  unfold aggregate_results.
  assert (Ht : length row = t).
  { apply rectangular_Forall in Hrect. inversion Hrect; assumption. }
  rewrite Ht, Hrect. reflexivity.
Qed.

(** ** Cumulative sums *)

Lemma accumulate_from_length row : forall x,
  length (accumulate_from x row) = length row.
Proof. induction row as [|y row IH]; intros x; simpl; [|rewrite IH]; reflexivity. Qed.

Lemma accumulate_length row : length (accumulate row) = length row.
Proof. destruct row; simpl; [|rewrite accumulate_from_length]; reflexivity. Qed.

Lemma accumulate_from_nth row : forall x i,
  i < length row ->
  nth i (accumulate_from x row) zero = fold_left add (take (S i) row) x.
Proof.
  induction row as [|y row IH]; intros x i Hi; simpl in Hi; [lia|].
  destruct i as [|i]; simpl.
  - reflexivity.
  - apply IH. lia.
Qed.

Lemma accumulate_nth row i :
  i < length row -> nth i (accumulate row) zero = cumulative_sum i row.
Proof.
  destruct row as [|x row]; simpl; [lia|]. intros Hi.
  unfold cumulative_sum; simpl.
  destruct i as [|i]; [reflexivity|].
  apply accumulate_from_nth. lia.
Qed.

Lemma np_cumsum1_rectangular t a :
  Forall (fun row => length row = t) a ->
  Forall (fun row => length row = t) (np_cumsum1 a).
Proof.
  intros Hall. unfold np_cumsum1. rewrite Forall_map.
  eapply Forall_impl; [exact Hall|].
  intros row Hrow; simpl in Hrow |- *. rewrite accumulate_length. exact Hrow.
Qed.

Lemma across_runs_cumsum t a i :
  Forall (fun row => length row = t) a -> i < t ->
  across_runs i (np_cumsum1 a) = map (cumulative_sum i) a.
Proof.
  intros Hall Hi. unfold across_runs, np_cumsum1. rewrite map_map.
  apply map_ext_Forall. eapply Forall_impl; [exact Hall|].
  intros row Hrow; simpl in Hrow |- *. apply accumulate_nth. lia.
Qed.

(** C2. On a non-empty rectangular array of runs, the second output of
    [aggregate_results] holds, at every time step, the standard error
    of the values of the runs at that step: their standard deviation
    divided by the square root of the number of runs. *)
Theorem aggregate_results_stderr (results : list (list A)) (t : nat) :
  results <> [] -> rectangular t results = true ->
  exists results_mean results_stderr cumresults_stderr,
    aggregate_results results
    = Ret (results_mean, results_stderr, cumresults_stderr)
    /\ length results_stderr = t
    /\ forall i, i < t ->
         results_stderr !! i = Some (stderr_of (across_runs i results)).
Proof.
  intros Hne Hrect. do 3 eexists.
  split; [apply (aggregate_results_rectangular t), Hrect; exact Hne|].
  apply rectangular_Forall in Hrect.
  split; [rewrite length_map; apply np_std0_length, Hrect|].
  intros i Hi. unfold stderr_of.
  rewrite list_lookup_fmap, (np_std0_lookup t _ i Hrect Hi), across_runs_length.
  reflexivity.
Qed.

(** C4. On a non-empty rectangular array of runs, the third output of
    [aggregate_results] holds, at every time step, the standard error
    across runs of the cumulative sums of the runs up to that step. *)
Theorem aggregate_results_cumulative_stderr (results : list (list A)) (t : nat) :
  results <> [] -> rectangular t results = true ->
  exists results_mean results_stderr cumresults_stderr,
    aggregate_results results
    = Ret (results_mean, results_stderr, cumresults_stderr)
    /\ length cumresults_stderr = t
    /\ forall i, i < t ->
         cumresults_stderr !! i
         = Some (stderr_of (map (cumulative_sum i) results)).
Proof.
  intros Hne Hrect. do 3 eexists.
  split; [apply (aggregate_results_rectangular t), Hrect; exact Hne|].
  apply rectangular_Forall in Hrect.
  pose proof (np_cumsum1_rectangular t _ Hrect) as Hcum.
  split; [rewrite length_map; apply np_std0_length, Hcum|].
  intros i Hi. unfold stderr_of.
  rewrite list_lookup_fmap, (np_std0_lookup t _ i Hcum Hi).
  rewrite (across_runs_cumsum t _ i Hrect Hi), length_map.
  reflexivity.
Qed.

End AggregateFacts.


Lemma aggregate_results_stderr_witness :
  exists results_mean results_stderr cumresults_stderr,
    aggregate_results some_runs
    = Ret (results_mean, results_stderr, cumresults_stderr)
    /\ length results_stderr = 2
    /\ forall i, i < 2 ->
         results_stderr !! i = Some (stderr_of (across_runs i some_runs)).
Proof.
  apply (aggregate_results_stderr some_runs 2); [discriminate|reflexivity].
Defined.

Lemma aggregate_results_cumulative_stderr_witness :
  exists results_mean results_stderr cumresults_stderr,
    aggregate_results some_runs
    = Ret (results_mean, results_stderr, cumresults_stderr)
    /\ length cumresults_stderr = 2
    /\ forall i, i < 2 ->
         cumresults_stderr !! i
         = Some (stderr_of (map (cumulative_sum i) some_runs)).
Proof.
  apply (aggregate_results_cumulative_stderr some_runs 2);
    [discriminate|reflexivity].
Defined.

(** ** Aggregating identical rows in exact arithmetic *)

Section IdenticalRows.
Context {A : Type} `{ExactArith A}.

Lemma map_zero (r : list A) (f : A -> A) :
  (forall x, f x = zero) -> map f r = replicate (length r) zero.
Proof.
  intros Hf. induction r as [|x r IH]; simpl; [reflexivity|].
  rewrite Hf, IH. reflexivity.
Qed.

Lemma fold_add_copies (r : list A) n : forall k,
  fold_left (zip_with add) (replicate n r) (map (multiply (of_count k)) r)
  = map (multiply (of_count (n + k))) r.
Proof.
  induction n as [|n IH]; intros k; simpl; [reflexivity|].
  replace (zip_with add (map (multiply (of_count k)) r) r)
    with (map (multiply (of_count (S k))) r).
  - rewrite IH. f_equal. f_equal. f_equal. lia.
  - clear IH. induction r as [|x r IHr]; simpl; [reflexivity|].
    rewrite IHr, of_count_succ, multiply_distributes, multiply_one_l.
    reflexivity.
Qed.

(** The sum of [n] copies of a row is [n] times the row. *)
Lemma add_reduce0_copies (r : list A) n :
  add_reduce0 (length r) (replicate n r) = map (multiply (of_count n)) r.
Proof.
  unfold add_reduce0.
  rewrite <- (map_zero r (multiply (of_count 0))).
  - rewrite fold_add_copies. f_equal. f_equal. f_equal. lia.
  - intros x. rewrite of_count_zero. apply multiply_zero_l.
Qed.

Lemma np_mean0_copies (r : list A) n :
  np_mean0 (length r) (replicate (S n) r) = r.
Proof.
  unfold np_mean0. rewrite add_reduce0_copies, length_replicate, map_map.
  rewrite <- (map_id r) at 2. apply map_ext. intros x. apply divide_cancels.
Qed.

Lemma add_reduce0_zeros t n :
  add_reduce0 t (replicate n (replicate t (zero : A))) = replicate t zero.
Proof.
  unfold add_reduce0. induction n as [|n IH]; simpl; [reflexivity|].
  replace (zip_with add (replicate t zero) (replicate t (zero : A)))
    with (replicate t (zero : A)); [exact IH|].
  clear IH. induction t as [|t IHt]; simpl; [reflexivity|].
  rewrite add_zero_l, <- IHt. reflexivity.
Qed.

Lemma zip_subtract_diag (r : list A) :
  zip_with subtract r r = replicate (length r) zero.
Proof.
  induction r as [|x r IH]; simpl; [reflexivity|].
  rewrite subtract_diag, IH. reflexivity.
Qed.

Lemma map_replicate_zero t (f : A -> A) :
  f zero = zero -> map f (replicate t zero) = replicate t zero.
Proof. intros Hf. induction t as [|t IH]; simpl; [|rewrite Hf, IH]; reflexivity. Qed.

Lemma map_replicate {X Y} (f : X -> Y) n (x : X) :
  map f (replicate n x) = replicate n (f x).
Proof. induction n as [|n IH]; simpl; [|rewrite IH]; reflexivity. Qed.

(** Identical rows have no spread. *)
Lemma np_std0_copies (r : list A) n :
  np_std0 (length r) (replicate (S n) r) = replicate (length r) zero.
Proof.
  unfold np_std0. rewrite np_mean0_copies, !map_replicate, zip_subtract_diag.
  rewrite (map_replicate_zero _ (fun d => multiply d d)) by apply multiply_zero_l.
  rewrite add_reduce0_zeros.
  rewrite map_replicate_zero by apply divide_zero_l.
  apply map_replicate_zero, sqrt_zero.
Qed.

(** C6, in exact arithmetic.  Aggregating [n >= 1] identical copies of
    a row [r] yields [r] itself as the mean and zero as the standard
    error at every position (and likewise for the cumulative column). *)
Theorem aggregate_results_identical_rows (n : nat) (r : list A) :
  1 <= n ->
  aggregate_results (replicate n r)
  = Ret (r, replicate (length r) zero, replicate (length r) zero).
Proof.
  intros Hn. destruct n as [|n]; [lia|].
  rewrite (aggregate_results_rectangular (length r)).
  - pose proof (np_std0_copies (accumulate r) n) as Hcum.
    rewrite accumulate_length in Hcum.
    unfold np_cumsum1. rewrite map_replicate, Hcum.
    rewrite np_mean0_copies, np_std0_copies.
    rewrite map_replicate_zero by apply divide_zero_l. reflexivity.
  - discriminate.
  - apply rectangular_Forall, Forall_replicate. reflexivity.
Qed.

End IdenticalRows.

(** The reals are an exact arithmetic. *)
#[export] Instance real_exact : ExactArith R.
Proof.
  split; simpl.
  - apply Rplus_0_l.
  - apply Rmult_plus_distr_r.
  - apply Rmult_0_l.
  - apply Rmult_1_l.
  - reflexivity.
  - intros n. apply S_INR.
  - intros n x. pose proof (not_0_INR (S n) ltac:(lia)) as Hn.
    field. exact Hn.
  - intros x. unfold Rdiv. apply Rmult_0_l.
  - intros x. unfold Rminus. apply Rplus_opp_r.
  - apply sqrt_0.
Qed.


Lemma aggregate_results_identical_rows_witness :
  aggregate_results (replicate 3 [1%R; 2%R])
  = Ret ([1%R; 2%R], [0%R; 0%R], [0%R; 0%R]).
Proof.
  exact (aggregate_results_identical_rows 3 [1%R; 2%R] ltac:(lia)).
Defined.

(** C6 fails on [float64].  The mean of three copies of [0.1] is the
    next number above [0.1], and the standard error is not zero. *)
Lemma aggregate_results_identical_rows_rounding :
  aggregate_results identical_runs
  = Ret ([0x1.999999999999bp-4; 1]%float,
         [0x1.279a74590331dp-57; 0]%float,
         [0x1.279a74590331dp-57; 0]%float)
  /\ PrimFloat.eqb 0x1.999999999999bp-4 tenth = false
  /\ PrimFloat.eqb 0x1.279a74590331dp-57 0 = false.
Proof. vm_compute. repeat split. Qed.

(** ** Permuting the runs *)

Section PermutedRuns.
Context {A : Type} `{ExactSum A}.

Lemma zip_add_swap (x y : list A) : forall acc,
  zip_with add (zip_with add acc x) y = zip_with add (zip_with add acc y) x.
Proof.
  revert y. induction x as [|u x IH]; intros y acc.
  - destruct acc, y; reflexivity.
  - destruct acc as [|a acc]; [reflexivity|].
    destruct y as [|v y]; [reflexivity|]. simpl.
    rewrite IH. f_equal.
    rewrite <- !add_associates. f_equal. apply add_commutes.
Qed.

Lemma fold_zip_add_Permutation (a a' : list (list A)) :
  Permutation a a' ->
  forall acc, fold_left (zip_with add) a acc = fold_left (zip_with add) a' acc.
Proof.
  induction 1 as [|row a a' _ IH|r1 r2 a|a a' a'' _ IH1 _ IH2]; intros acc; simpl.
  - reflexivity.
  - apply IH.
  - rewrite zip_add_swap. reflexivity.
  - rewrite IH1. apply IH2.
Qed.

Lemma add_reduce0_Permutation t (a a' : list (list A)) :
  Permutation a a' -> add_reduce0 t a = add_reduce0 t a'.
Proof. intros Hp. apply fold_zip_add_Permutation, Hp. Qed.

Lemma np_mean0_Permutation t (a a' : list (list A)) :
  Permutation a a' -> np_mean0 t a = np_mean0 t a'.
Proof.
  intros Hp. unfold np_mean0.
  rewrite (add_reduce0_Permutation t a a' Hp), (Permutation_length Hp).
  reflexivity.
Qed.

Lemma np_std0_Permutation t (a a' : list (list A)) :
  Permutation a a' -> np_std0 t a = np_std0 t a'.
Proof.
  intros Hp. unfold np_std0.
  rewrite (np_mean0_Permutation t a a' Hp), (Permutation_length Hp).
  do 2 f_equal. apply add_reduce0_Permutation.
  do 2 apply Permutation_map. exact Hp.
Qed.

(** C7, for sums that do not depend on the order of their terms.
    Permuting the runs of a non-empty rectangular array changes no
    output of [aggregate_results]: not the mean, not the standard
    error (and not the cumulative column either). *)
Theorem aggregate_results_permutation (results results' : list (list A)) (t : nat) :
  results <> [] -> rectangular t results = true ->
  Permutation results results' ->
  exists results_mean results_stderr cumresults_stderr,
    aggregate_results results
    = Ret (results_mean, results_stderr, cumresults_stderr)
    /\ aggregate_results results'
      = Ret (results_mean, results_stderr, cumresults_stderr).
Proof.
  intros Hne Hrect Hp. do 3 eexists.
  split; [apply (aggregate_results_rectangular t), Hrect; exact Hne|].
  rewrite (aggregate_results_rectangular t).
  - rewrite (np_mean0_Permutation t _ _ Hp), (np_std0_Permutation t _ _ Hp).
    rewrite (np_std0_Permutation t (np_cumsum1 results) (np_cumsum1 results')),
      (Permutation_length Hp); [reflexivity|].
    apply Permutation_map, Hp.
  - intros ->. apply Permutation_nil_r in Hp. contradiction.
  - apply rectangular_Forall. rewrite <- Hp. apply rectangular_Forall, Hrect.
Qed.

End PermutedRuns.

(** The sums of real numbers do not depend on the order of the terms. *)
#[export] Instance real_sum : ExactSum R.
Proof.
  split; simpl.
  - apply Rplus_comm.
  - intros x y z. symmetry. apply Rplus_assoc.
Qed.


Lemma aggregate_results_permutation_witness :
  exists results_mean results_stderr cumresults_stderr,
    aggregate_results [[1; 2]; [3; 4]; [5; 9]]%R
    = Ret (results_mean, results_stderr, cumresults_stderr)
    /\ aggregate_results [[5; 9]; [1; 2]; [3; 4]]%R
      = Ret (results_mean, results_stderr, cumresults_stderr).
Proof.
  apply (aggregate_results_permutation _ _ 2); [discriminate|reflexivity|].
  symmetry. apply (Permutation_cons_append [[1; 2]; [3; 4]]%R [5; 9]%R).
Defined.

(** C7 fails on [float64].  Exchanging the last two of three runs
    changes the last bits of both the mean and the standard error. *)
Lemma aggregate_results_permutation_rounding :
  Permutation some_runs some_runs_permuted
  /\ aggregate_results some_runs
    = Ret ([0x1.dddddddddddddp-2; 2]%float,
           [0x1.c83f5a352f9f8p-3; 0]%float,
           [0x1.c83f5a352f9f8p-3; 0x1.c83f5a352f9f7p-3]%float)
  /\ aggregate_results some_runs_permuted
    = Ret ([0x1.ddddddddddddfp-2; 2]%float,
           [0x1.c83f5a352f9f7p-3; 0]%float,
           [0x1.c83f5a352f9f7p-3; 0x1.c83f5a352f9f7p-3]%float)
  /\ PrimFloat.eqb 0x1.dddddddddddddp-2 0x1.ddddddddddddfp-2 = false
  /\ PrimFloat.eqb 0x1.c83f5a352f9f8p-3 0x1.c83f5a352f9f7p-3 = false.
Proof.
  split; [apply perm_skip, perm_swap|]. vm_compute. repeat split.
Qed.

(** ** Computations *)

Section Computations.
Context {A : Type} `{Scalar A}.
Implicit Types (w : world A) (log : list (event A)).

Lemma bind_Ret {R S} (m : prog A R) (k : R -> prog A S) log r :
  m = (log, Ret r) -> m ≫= k = (log ++ (k r).1, (k r).2).
Proof. intros ->. unfold mbind, prog_bind, bind. destruct (k r). reflexivity. Qed.

(** The events of a sequence: those of its first part, then, if that
    returns, those of the rest. *)
Lemma bind_log {R S} (m : prog A R) (k : R -> prog A S) :
  (m ≫= k).1 = m.1 ++ match m.2 with Ret r => (k r).1 | _ => [] end.
Proof.
  destruct m as [log [r|e|]]; simpl.
  - unfold mbind, prog_bind, bind. destruct (k r). reflexivity.
  - rewrite app_nil_r. reflexivity.
  - rewrite app_nil_r. reflexivity.
Qed.

(** ** One attempt to load a run *)

(** The body of the [try] block for run [n]: format the name, load. *)
Lemma load_attempt_table w file_name n path run :
  str_format w file_name n = ret path ->
  files w !! path = Some (Table run) ->
  except_IOError (path ← str_format w file_name n; np_loadtxt w path)
  = ([EvRead path], Ret (Some run)).
Proof.
  intros -> Hfile.
  unfold np_loadtxt, mbind, prog_bind, bind, ret, emit; simpl.
  rewrite Hfile. reflexivity.
Qed.

Lemma load_attempt_error w file_name n path e :
  str_format w file_name n = ret path ->
  loadtxt_error (files w !! path) = Some e ->
  except_IOError (path ← str_format w file_name n; np_loadtxt w path)
  = ([EvRead path], if is_IOError e then Ret None else Raise e).
Proof.
  intros -> Herr.
  unfold np_loadtxt, mbind, prog_bind, bind, ret, emit; simpl.
  destruct (files w !! path) as [[run| | |]|]; simplify_eq/=; reflexivity.
Qed.

Lemma load_results_loop_unfold fuel w file_name n results :
  load_results_loop (S fuel) w file_name n results
  = (loaded ← except_IOError
                (path ← str_format w file_name n; np_loadtxt w path);
     match loaded with
     | Some run => load_results_loop fuel w file_name (S n) (results ++ [run])
     | None => ret (n, results)
     end).
Proof. reflexivity. Qed.

(** The loop, when runs [n], [n+1], ... load and the next fails. *)
Lemma load_results_loop_stops w file_name
    (runs : list (list ascii * list A)) (last : list ascii) (e : exn) :
  forall fuel n results,
  (forall i path run, runs !! i = Some (path, run) ->
     str_format w file_name (n + i) = ret path
     /\ files w !! path = Some (Table run)) ->
  str_format w file_name (n + length runs) = ret last ->
  loadtxt_error (files w !! last) = Some e ->
  length runs < fuel ->
  load_results_loop fuel w file_name n results
  = (map EvRead (runs.*1 ++ [last]),
     if is_IOError e then Ret (n + length runs, results ++ runs.*2)
     else Raise e).
Proof.
  induction runs as [|[path run] runs IH]; intros fuel n results Hruns Hlast He Hfuel.
  - destruct fuel as [|fuel]; [simpl in Hfuel; lia|].
    rewrite load_results_loop_unfold. simpl in Hlast.
    rewrite Nat.add_0_r in Hlast.
    rewrite (load_attempt_error w file_name n last e Hlast He).
    simpl. rewrite Nat.add_0_r, app_nil_r.
    destruct (is_IOError e); reflexivity.
  - destruct fuel as [|fuel]; [simpl in Hfuel; lia|]. simpl in Hfuel.
    rewrite load_results_loop_unfold.
    destruct (Hruns 0 path run eq_refl) as [Hfmt Hfile].
    rewrite Nat.add_0_r in Hfmt.
    rewrite (load_attempt_table w file_name n path run Hfmt Hfile).
    unfold mbind, prog_bind, bind.
    rewrite (IH fuel (S n) (results ++ [run])).
    + simpl. destruct (is_IOError e); [|reflexivity].
      rewrite <- app_assoc. simpl. do 3 f_equal. lia.
    + intros i p v Hi. replace (S n + i) with (n + S i) by lia.
      apply Hruns. exact Hi.
    + replace (S n + length runs) with (n + S (length runs)) by lia. exact Hlast.
    + exact He.
    + lia.
Qed.

(** [load_results] when the runs load and the next attempt fails with
    an [IOError]. *)
Lemma load_results_stops fuel w file_name
    (runs : list (list ascii * list A)) (last : list ascii) (e : exn) :
  (forall i path run, runs !! i = Some (path, run) ->
     str_format w file_name i = ret path
     /\ files w !! path = Some (Table run)) ->
  str_format w file_name (length runs) = ret last ->
  loadtxt_error (files w !! last) = Some e ->
  is_IOError e = true ->
  length runs < fuel ->
  load_results fuel w file_name
  = (map EvRead (runs.*1 ++ [last])
       ++ [EvPrint ("Loaded " ++ decimal (length runs) ++ " runs")],
     Ret (np_array runs.*2)).
Proof.
  intros Hruns Hlast He Hio Hfuel. unfold load_results.
  rewrite (load_results_loop_stops w file_name runs last e fuel 0 [])
    by assumption.
  rewrite Hio. reflexivity.
Qed.

(** C1, as the code has it.  If the files for run numbers [0 .. k-1]
    hold tables, so that [np.loadtxt] returns their arrays, and the
    file for run number [k] does not exist, [load_results] reads the
    files for [0, 1, .., k] in this order and nothing else, and returns
    the [k] tables in the order of their run numbers. *)
Theorem load_results_sequential fuel w file_name
    (runs : list (list ascii * list A)) (missing : list ascii) :
  (forall i path run, runs !! i = Some (path, run) ->
     str_format w file_name i = ret path
     /\ files w !! path = Some (Table run)) ->
  str_format w file_name (length runs) = ret missing ->
  files w !! missing = None ->
  length runs < fuel ->
  load_results fuel w file_name
  = (map EvRead (runs.*1 ++ [missing])
       ++ [EvPrint ("Loaded " ++ decimal (length runs) ++ " runs")],
     Ret (np_array runs.*2))
  /\ np_size0 (np_array runs.*2) = length runs.
Proof.
  intros Hruns Hlast Hmissing Hfuel. split.
  - apply (load_results_stops fuel w file_name runs missing FileNotFoundError);
      try assumption; [|reflexivity].
    rewrite Hmissing. reflexivity.
  - unfold np_size0, np_array. apply length_fmap.
Qed.

(** C9. If the file for run number 0 does not exist, [load_results]
    does not raise: it returns the empty array. *)
Theorem load_results_first_missing fuel w file_name (missing : list ascii) :
  str_format w file_name 0 = ret missing ->
  files w !! missing = None ->
  1 <= fuel ->
  load_results fuel w file_name
  = ([EvRead missing; EvPrint "Loaded 0 runs"], Ret []).
Proof.
  intros Hfmt Hmissing Hfuel.
  apply (load_results_stops fuel w file_name [] missing FileNotFoundError).
  - intros i path run Hi. rewrite lookup_nil in Hi. discriminate.
  - exact Hfmt.
  - rewrite Hmissing. reflexivity.
  - reflexivity.
  - simpl. lia.
Qed.

(** C5, as the code has it.  A permission error is an [IOError]: when
    the file for run number [k] exists but may not be read,
    [load_results] ends its loop there and returns the [k] tables
    loaded before, exactly as for a missing file. *)
Theorem load_results_permission_error fuel w file_name
    (runs : list (list ascii * list A)) (unreadable : list ascii) :
  (forall i path run, runs !! i = Some (path, run) ->
     str_format w file_name i = ret path
     /\ files w !! path = Some (Table run)) ->
  str_format w file_name (length runs) = ret unreadable ->
  files w !! unreadable = Some Unreadable ->
  length runs < fuel ->
  load_results fuel w file_name
  = (map EvRead (runs.*1 ++ [unreadable])
       ++ [EvPrint ("Loaded " ++ decimal (length runs) ++ " runs")],
     Ret (np_array runs.*2)).
Proof.
  intros Hruns Hlast Hfile Hfuel.
  apply (load_results_stops fuel w file_name runs unreadable PermissionError);
    try assumption; [|reflexivity].
  rewrite Hfile. reflexivity.
Qed.

(** A failure that is not an [IOError] is not handled: malformed
    numeric data in the file for run number [k] raises [ValueError]
    out of [load_results], after the files before it were read. *)
Theorem load_results_malformed fuel w file_name
    (runs : list (list ascii * list A)) (malformed : list ascii) :
  (forall i path run, runs !! i = Some (path, run) ->
     str_format w file_name i = ret path
     /\ files w !! path = Some (Table run)) ->
  str_format w file_name (length runs) = ret malformed ->
  files w !! malformed = Some Malformed ->
  length runs < fuel ->
  load_results fuel w file_name
  = (map EvRead (runs.*1 ++ [malformed]), Raise ValueError).
Proof.
  intros Hruns Hlast Hfile Hfuel. unfold load_results.
  rewrite (load_results_loop_stops w file_name runs malformed ValueError fuel 0 []);
    try assumption; [reflexivity|].
  rewrite Hfile. reflexivity.
Qed.

End Computations.


Lemma load_results_sequential_witness :
  load_results 5 two_runs "d/run-{}.txt"
  = ([EvRead "d/run-0.txt"; EvRead "d/run-1.txt"; EvRead "d/run-2.txt";
      EvPrint "Loaded 2 runs"],
     Ret [[1; 2]; [3; 5]]%float)
  /\ np_size0 (np_array [[1; 2]; [3; 5]]%float) = 2.
Proof.
  apply (load_results_sequential 5 two_runs "d/run-{}.txt"
           [("d/run-0.txt" : list ascii, [1; 2]%float);
            ("d/run-1.txt" : list ascii, [3; 5]%float)]
           "d/run-2.txt").
  - intros [|[|i]] path run Hi; simplify_eq/=; split; reflexivity.
  - reflexivity.
  - reflexivity.
  - simpl. lia.
Defined.

(** C1 fails as stated.  The files of run numbers 0 and 1 exist and
    the file of run number 2 does not, yet [load_results] returns no
    array instead of two: the first file may not be read, which ends
    the loop as a missing file would, and the second file is never
    asked for. *)
Lemma load_results_existing_unreadable :
  files locked_first !! ("d/run-0.txt" : list ascii) = Some Unreadable
  /\ files locked_first !! ("d/run-1.txt" : list ascii) = Some (Table [3; 5]%float)
  /\ files locked_first !! ("d/run-2.txt" : list ascii) = None
  /\ load_results 5 locked_first "d/run-{}.txt"
     = ([EvRead "d/run-0.txt"; EvPrint "Loaded 0 runs"], Ret []).
Proof. repeat split; vm_compute; reflexivity. Qed.

Lemma load_results_first_missing_witness :
  load_results 5 two_runs "d/other-{}.txt"
  = ([EvRead "d/other-0.txt"; EvPrint "Loaded 0 runs"], Ret []).
Proof.
  apply (load_results_first_missing 5 two_runs "d/other-{}.txt" "d/other-0.txt");
    [reflexivity|reflexivity|lia].
Defined.

Lemma load_results_permission_error_witness :
  load_results 5 locked_run "d/run-{}.txt"
  = ([EvRead "d/run-0.txt"; EvRead "d/run-1.txt"; EvPrint "Loaded 1 runs"],
     Ret [[1; 2]]%float).
Proof.
  apply (load_results_permission_error 5 locked_run "d/run-{}.txt"
           [("d/run-0.txt" : list ascii, [1; 2]%float)] "d/run-1.txt").
  - intros [|i] path run Hi; simplify_eq/=; split; reflexivity.
  - reflexivity.
  - reflexivity.
  - simpl. lia.
Defined.

(** C5 fails as stated.  The second run file may not be read:
    [np.loadtxt] raises [PermissionError], and [load_results] returns
    the first run instead of letting the error through. *)
Lemma load_results_permission_error_handled :
  np_loadtxt locked_run "d/run-1.txt"
  = ([EvRead "d/run-1.txt"], Raise PermissionError)
  /\ load_results 5 locked_run "d/run-{}.txt"
     = ([EvRead "d/run-0.txt"; EvRead "d/run-1.txt"; EvPrint "Loaded 1 runs"],
        Ret [[1; 2]]%float)
  /\ (load_results 5 locked_run "d/run-{}.txt").2 <> Raise PermissionError.
Proof.
  split; [reflexivity|]. split; [vm_compute; reflexivity|].
  vm_compute. discriminate.
Qed.

Lemma load_results_malformed_witness :
  load_results 5 broken_run "d/run-{}.txt"
  = ([EvRead "d/run-0.txt"; EvRead "d/run-1.txt"], Raise ValueError).
Proof.
  apply (load_results_malformed 5 broken_run "d/run-{}.txt"
           [("d/run-0.txt" : list ascii, [1; 2]%float)] "d/run-1.txt").
  - intros [|i] path run Hi; simplify_eq/=; split; reflexivity.
  - reflexivity.
  - reflexivity.
  - simpl. lia.
Defined.

(** ** Facts about strings *)

Lemma is_char_true c d : is_char c d = true <-> c = d.
Proof. unfold is_char. apply bool_decide_eq_true. Qed.

Lemma is_char_false c d : is_char c d = false <-> c <> d.
Proof. unfold is_char. apply bool_decide_eq_false. Qed.

Lemma has_char_app c s1 s2 : has_char c (s1 ++ s2) = has_char c s1 || has_char c s2.
Proof. apply existsb_app. Qed.

Lemma has_char_false c s : has_char c s = false <-> c ∉ s.
Proof.
  induction s as [|d s IH]; simpl.
  - split; [intros _; apply not_elem_of_nil|reflexivity].
  - rewrite orb_false_iff, IH, is_char_false, not_elem_of_cons. reflexivity.
Qed.

(** A string without the separator is one piece. *)
Lemma split_on_absent c s : has_char c s = false -> split_on c s = [s].
Proof.
  induction s as [|x s IH]; simpl; [reflexivity|].
  intros [Hx Hs]%orb_false_iff. rewrite Hx, (IH Hs). reflexivity.
Qed.

Lemma match_basename_unfold c s :
  match_basename (c :: s)
  = match (if is_char newline c then None else match_basename s) with
    | Some group => Some (c :: group)
    | None => if matches_run0_suffix (c :: s) then Some [] else None
    end.
Proof. reflexivity. Qed.

(** The group matched by [match_basename] has no newline. *)
Lemma match_basename_newline s : forall group,
  match_basename s = Some group -> has_char newline group = false.
Proof.
  induction s as [|c s IH]; intros group; [discriminate|].
  rewrite match_basename_unfold.
  destruct (is_char newline c) eqn:Hc.
  - destruct (matches_run0_suffix (c :: s)); intros Heq; simplify_eq; reflexivity.
  - destruct (match_basename s) as [g|] eqn:Hg.
    + intros [= <-]. simpl. rewrite Hc, (IH g eq_refl). reflexivity.
    + destruct (matches_run0_suffix (c :: s)); intros Heq; simplify_eq; reflexivity.
Qed.

(** Decimal numerals consist of digits. *)
Lemma pretty_N_char_digit x : is_digit (pretty_N_char x) = true.
Proof. unfold pretty_N_char. repeat case_match; reflexivity. Qed.

Lemma pretty_N_go_digits x : forall s,
  Forall (fun c => is_digit c = true) (list_ascii_of_string s) ->
  Forall (fun c => is_digit c = true) (list_ascii_of_string (pretty_N_go x s)).
Proof.
  induction (N.lt_wf_0 x) as [x _ IH]; intros s Hs.
  destruct (decide (x = 0)%N) as [->|Hx]; [rewrite pretty_N_go_0; exact Hs|].
  rewrite pretty_N_go_step by lia.
  apply IH; [apply N.div_lt; lia|].
  simpl. constructor; [apply pretty_N_char_digit|exact Hs].
Qed.

Lemma decimal_digits n : Forall (fun c => is_digit c = true) (decimal n).
Proof.
  unfold decimal, pretty, pretty_nat, pretty, pretty_N.
  case_decide; [repeat constructor|].
  apply pretty_N_go_digits. constructor.
Qed.

Lemma decimal_lacks c n : is_digit c = false -> has_char c (decimal n) = false.
Proof.
  intros Hc. apply has_char_false. intros Hin.
  pose proof (decimal_digits n) as Hd. rewrite Forall_forall in Hd.
  specialize (Hd c Hin). congruence.
Qed.

(** The header of an aggregated file is a single comment line. *)
Lemma header_lines_single (name : list ascii) n :
  has_char newline name = false ->
  header_lines (name ++ " (" ++ decimal n ++ " runs)")
  = ["# " ++ name ++ " (" ++ decimal n ++ " runs)"].
Proof.
  intros Hname. unfold header_lines.
  destruct (name ++ " (" ++ decimal n ++ " runs)") as [|c s] eqn:Hs.
  { destruct name; discriminate. }
  rewrite <- Hs, split_on_absent; [reflexivity|].
  rewrite !has_char_app, Hname, decimal_lacks by reflexivity. reflexivity.
Qed.

(** ** Summarising a directory *)

Section Summaries.
Context {A : Type} `{Scalar A}.
Implicit Types (w : world A) (log : list (event A)) (ev : event A).

(** An event of a loop is an event of one of its iterations. *)
Lemma for_each_event {X} (xs : list X) (body : X -> prog A unit) ev :
  ev ∈ (for_each xs body).1 -> exists x, x ∈ xs /\ ev ∈ (body x).1.
Proof.
  induction xs as [|x xs IH]; simpl; [intros Hin; inversion Hin|].
  rewrite bind_log, elem_of_app. intros [Hin|Hin].
  - exists x. split; [left|exact Hin].
  - destruct (body x).2; try (inversion Hin; fail).
    destruct (IH Hin) as (y & Hy & Hev). exists y. split; [right; exact Hy|exact Hev].
Qed.

Lemma str_format_log w pattern n : (str_format w pattern n).1 = [].
Proof.
  unfold str_format. destruct (format_scan _ _ _ _ _); [reflexivity..|].
  destruct (format_other _ _ _); reflexivity.
Qed.

(** Every event of the loading loop is the reading of a file whose name
    is the pattern formatted with some run number. *)
Lemma load_results_loop_events fuel w file_name : forall n results ev,
  ev ∈ (load_results_loop fuel w file_name n results).1 ->
  exists i path, ev = EvRead path /\ str_format w file_name i = ret path.
Proof.
  induction fuel as [|fuel IH]; intros n results ev; [intros Hin; inversion Hin|].
  rewrite load_results_loop_unfold, bind_log, elem_of_app.
  pose proof (str_format_log w file_name n) as Hlog.
  destruct (str_format w file_name n) as [log [path|e|]] eqn:Hfmt;
    simpl in Hlog; subst log.
  - unfold np_loadtxt, mbind, prog_bind, bind, emit, ret, raise; simpl.
    assert (Hread : ev ∈ [EvRead path : event A] ->
              exists i p, ev = EvRead p /\ str_format w file_name i = ([], Ret p)).
    { intros ->%list_elem_of_singleton. exists n, path. split; [reflexivity|exact Hfmt]. }
    destruct (files w !! path) as [[run| | |]|]; simpl;
      (intros [Hin|Hin]; [exact (Hread Hin)|]);
      try (inversion Hin; fail).
    exact (IH _ _ _ Hin).
  - simpl. destruct (is_IOError e); simpl;
      intros [Hin|Hin]; inversion Hin.
  - simpl. intros [Hin|Hin]; inversion Hin.
Qed.

Lemma load_results_events fuel w file_name ev :
  ev ∈ (load_results fuel w file_name).1 ->
  (exists i path, ev = EvRead path /\ str_format w file_name i = ret path)
  \/ (exists line, ev = EvPrint line).
Proof.
  unfold load_results. rewrite bind_log, elem_of_app. intros [Hin|Hin].
  - left. eapply load_results_loop_events, Hin.
  - right. destruct (load_results_loop _ _ _ _ _).2 as [[n results]|e|];
      try (inversion Hin; fail).
    simpl in Hin. apply list_elem_of_singleton in Hin. eauto.
Qed.

(** What one turn of the generator returns. *)
Lemma load_directory_item_Ret fuel w pathname log name results :
  load_directory_item fuel w pathname = (log, Ret (name, results)) ->
  re_findall_basename (os_path_basename pathname) = [name]
  /\ exists log', load_results fuel w (re_sub_run_number pathname)
                  = (log', Ret results).
Proof.
  unfold load_directory_item.
  destruct (re_findall_basename _) as [|basename [|? ?]]; try discriminate.
  destruct (load_results fuel w _) as [log' [r|e|]] eqn:Hload;
    unfold print, emit, mbind, prog_bind, bind, ret; simpl;
    intros Heq; simplify_eq.
  split; [reflexivity|]. exists log'. reflexivity.
Qed.

(** The generator itself writes no file. *)
Lemma load_directory_item_no_write fuel w pathname path header rows :
  EvWrite path header rows ∉ (load_directory_item fuel w pathname).1.
Proof.
  unfold load_directory_item.
  destruct (re_findall_basename _) as [|basename [|? ?]];
    try (simpl; apply not_elem_of_nil).
  rewrite bind_log. simpl. rewrite bind_log.
  intros [Hin|Hin]%elem_of_cons; [discriminate|].
  apply elem_of_app in Hin as [Hin|Hin].
  - apply load_results_events in Hin as [(i & p & Hev & _)|(line & Hev)];
      discriminate.
  - destruct (load_results fuel w _).2; try (inversion Hin; fail).
    simpl in Hin. apply list_elem_of_singleton in Hin. discriminate.
Qed.

(** The file one turn of the loop of [summarize_directory] writes. *)
Lemma summarize_item_write w output_directory name results path header rows :
  EvWrite path header rows ∈ (summarize_item w output_directory (name, results)).1 ->
  exists m s c,
    aggregate_results results = Ret (m, s, c)
    /\ path = os_path_join output_directory (name ++ ".txt")
    /\ header = header_lines (name ++ " (" ++ decimal (np_size0 results) ++ " runs)")
    /\ rows = np_transpose [m; s; c].
Proof.
  unfold summarize_item.
  destruct (aggregate_results results) as [[[m s] c]|e|];
    try (intros Hin; inversion Hin; fail).
  unfold np_savetxt. destruct (write_error w _);
    [intros Hin; inversion Hin|].
  intros Hin%list_elem_of_singleton. simplify_eq.
  exists m, s, c. repeat split.
Qed.

(** A written file comes from a pair the generator yielded. *)
Lemma summarize_directory_write fuel w directory output_directory path header rows :
  EvWrite path header rows
    ∈ (summarize_directory fuel w directory output_directory).1 ->
  exists pathname log name results,
    pathname ∈ glob_iglob w (os_path_join directory "*-0.txt")
    /\ load_directory_item fuel w pathname = (log, Ret (name, results))
    /\ EvWrite path header rows
         ∈ (summarize_item w (default directory output_directory)
              (name, results)).1.
Proof.
  unfold summarize_directory, load_directory.
  intros (pathname & Hglob & Hin)%for_each_event.
  rewrite bind_log in Hin. apply elem_of_app in Hin as [Hin|Hin].
  { exfalso. revert Hin. apply load_directory_item_no_write. }
  destruct (load_directory_item fuel w pathname) as [log [[name results]|e|]] eqn:Hitem;
    try (inversion Hin; fail).
  exists pathname, log, name, results. repeat split; assumption.
Qed.

(** [aggregate_results] returns three columns of one length. *)
Lemma aggregate_results_Ret (results : list (list A)) m s c :
  aggregate_results results = Ret (m, s, c) ->
  results <> [] /\ length s = length m /\ length c = length m.
Proof.
  destruct results as [|row results]; [discriminate|].
  unfold aggregate_results.
  destruct (rectangular (length row) (row :: results)) eqn:Hrect; [|discriminate].
  intros [= <- <- <-]. apply rectangular_Forall in Hrect.
  split; [discriminate|].
  rewrite !length_map, (np_mean0_length _ _ Hrect), (np_std0_length _ _ Hrect).
  change (accumulate row :: np_cumsum1 results) with (np_cumsum1 (row :: results)).
  rewrite (np_std0_length _ _ (np_cumsum1_rectangular _ _ Hrect)).
  split; reflexivity.
Qed.

(** The transposed array of three columns has one row per time step,
    made of the three values at that step. *)
Lemma np_transpose_columns (m s c : list A) :
  length s = length m -> length c = length m ->
  length (np_transpose [m; s; c]) = length m
  /\ forall i, i < length m ->
       exists x y z, m !! i = Some x /\ s !! i = Some y /\ c !! i = Some z
                     /\ np_transpose [m; s; c] !! i = Some [x; y; z].
Proof.
  intros Hs Hc. simpl. split.
  - rewrite !length_zip_with, length_map. lia.
  - intros i Hi.
    destruct (lookup_lt_is_Some_2 m i Hi) as [x Hx].
    destruct (lookup_lt_is_Some_2 s i ltac:(lia)) as [y Hy].
    destruct (lookup_lt_is_Some_2 c i ltac:(lia)) as [z Hz].
    exists x, y, z. repeat split; try assumption.
    rewrite !lookup_zip_with, list_lookup_fmap, Hx, Hy, Hz. reflexivity.
Qed.

(** C3. Every file [summarize_directory] writes belongs to a pair
    [(name, results)] that [load_directory] yielded, and its rows are
    the three outputs of [aggregate_results results] side by side: row
    [i] holds the mean, the standard error and the cumulative standard
    error at time step [i], so every row has exactly three columns. *)
Theorem summarize_directory_rows fuel w directory output_directory path header rows :
  EvWrite path header rows
    ∈ (summarize_directory fuel w directory output_directory).1 ->
  exists pathname log name results m s c,
    pathname ∈ glob_iglob w (os_path_join directory "*-0.txt")
    /\ load_directory_item fuel w pathname = (log, Ret (name, results))
    /\ path = os_path_join (default directory output_directory) (name ++ ".txt")
    /\ aggregate_results results = Ret (m, s, c)
    /\ length rows = length m
    /\ forall i, i < length rows ->
         exists x y z, m !! i = Some x /\ s !! i = Some y /\ c !! i = Some z
                       /\ rows !! i = Some [x; y; z].
Proof.
  intros (pathname & log & name & results & Hglob & Hitem & Hin)%summarize_directory_write.
  apply summarize_item_write in Hin as (m & s & c & Hagg & -> & _ & ->).
  destruct (aggregate_results_Ret results m s c Hagg) as (_ & Hs & Hc).
  destruct (np_transpose_columns m s c Hs Hc) as [Hlen Hrows].
  exists pathname, log, name, results, m, s, c.
  repeat split; try assumption.
  intros i Hi. apply Hrows. rewrite <- Hlen. exact Hi.
Qed.

(** C8. Every file [summarize_directory] writes starts with exactly one
    comment line, and this line names the basename and the number of
    runs that [load_results] returned for it. *)
Theorem summarize_directory_header fuel w directory output_directory path header rows :
  EvWrite path header rows
    ∈ (summarize_directory fuel w directory output_directory).1 ->
  exists pathname log name results,
    pathname ∈ glob_iglob w (os_path_join directory "*-0.txt")
    /\ re_findall_basename (os_path_basename pathname) = [name]
    /\ load_results fuel w (re_sub_run_number pathname) = (log, Ret results)
    /\ path = os_path_join (default directory output_directory) (name ++ ".txt")
    /\ header = ["# " ++ name ++ " (" ++ decimal (length results) ++ " runs)"].
Proof.
  intros (pathname & log & name & results & Hglob & Hitem & Hin)%summarize_directory_write.
  apply summarize_item_write in Hin as (m & s & c & _ & -> & -> & _).
  apply load_directory_item_Ret in Hitem as (Hname & log' & Hload).
  exists pathname, log', name, results. repeat split; try assumption.
  apply header_lines_single.
  unfold re_findall_basename in Hname.
  destruct (match_basename _) as [group|] eqn:Hgroup; [|discriminate].
  simplify_eq. eapply match_basename_newline, Hgroup.
Qed.

End Summaries.


Lemma two_runs_summary :
  summarize_directory 5 two_runs "d" None
  = ([EvPrint "Loading run";
      EvRead "d/run-0.txt"; EvRead "d/run-1.txt"; EvRead "d/run-2.txt";
      EvPrint "Loaded 2 runs";
      EvYield "run" [[1; 2]; [3; 5]]%float;
      EvWrite "d/run.txt" ["# run (2 runs)" : list ascii] two_runs_rows],
     Ret tt).
Proof. vm_compute. reflexivity. Qed.

Lemma summarize_directory_rows_witness :
  EvWrite "d/run.txt" ["# run (2 runs)" : list ascii] two_runs_rows
    ∈ (summarize_directory 5 two_runs "d" None).1
  /\ exists pathname log name results m s c,
    pathname ∈ glob_iglob two_runs (os_path_join "d" "*-0.txt")
    /\ load_directory_item 5 two_runs pathname = (log, Ret (name, results))
    /\ ("d/run.txt" : list ascii)
       = os_path_join (default ("d" : list ascii) None) (name ++ ".txt")
    /\ aggregate_results results = Ret (m, s, c)
    /\ length two_runs_rows = length m
    /\ forall i, i < length two_runs_rows ->
         exists x y z, m !! i = Some x /\ s !! i = Some y /\ c !! i = Some z
                       /\ two_runs_rows !! i = Some [x; y; z].
Proof.
  assert (Hwrite : EvWrite "d/run.txt" ["# run (2 runs)" : list ascii] two_runs_rows
                     ∈ (summarize_directory 5 two_runs "d" None).1).
  { rewrite two_runs_summary. simpl. do 6 right. left. }
  split; [exact Hwrite|].
  exact (summarize_directory_rows 5 two_runs "d" None _ _ _ Hwrite).
Defined.

Lemma summarize_directory_header_witness :
  EvWrite "d/run.txt" ["# run (2 runs)" : list ascii] two_runs_rows
    ∈ (summarize_directory 5 two_runs "d" None).1
  /\ exists pathname log name results,
    pathname ∈ glob_iglob two_runs (os_path_join "d" "*-0.txt")
    /\ re_findall_basename (os_path_basename pathname) = [name]
    /\ load_results 5 two_runs (re_sub_run_number pathname) = (log, Ret results)
    /\ ("d/run.txt" : list ascii)
       = os_path_join (default ("d" : list ascii) None) (name ++ ".txt")
    /\ ["# run (2 runs)" : list ascii]
       = ["# " ++ name ++ " (" ++ decimal (length results) ++ " runs)"].
Proof.
  assert (Hwrite : EvWrite "d/run.txt" ["# run (2 runs)" : list ascii] two_runs_rows
                     ∈ (summarize_directory 5 two_runs "d" None).1).
  { rewrite two_runs_summary. simpl. do 6 right. left. }
  split; [exact Hwrite|].
  exact (summarize_directory_header 5 two_runs "d" None _ _ _ Hwrite).
Defined.

(** ** Paths and patterns of run files *)

Lemma starts_with_app prefix s : starts_with prefix (prefix ++ s) = true.
Proof.
  induction prefix as [|c prefix IH]; simpl; [reflexivity|].
  rewrite bool_decide_eq_true_2 by reflexivity. exact IH.
Qed.

Lemma starts_with_inv prefix : forall s,
  starts_with prefix s = true -> exists rest, s = prefix ++ rest.
Proof.
  induction prefix as [|c prefix IH]; intros s; simpl.
  - exists s. reflexivity.
  - destruct s as [|d s]; [discriminate|].
    intros [Hc Hs]%andb_true_iff. apply bool_decide_eq_true in Hc as ->.
    destruct (IH s Hs) as [rest ->]. exists rest. reflexivity.
Qed.

Lemma ends_with_app suffix s : ends_with suffix (s ++ suffix) = true.
Proof. unfold ends_with. rewrite reverse_app. apply starts_with_app. Qed.

Lemma ends_with_inv suffix s :
  ends_with suffix s = true -> exists start, s = start ++ suffix.
Proof.
  unfold ends_with. intros [rest Hrest]%starts_with_inv.
  exists (reverse rest).
  rewrite <- (reverse_involutive s), Hrest, reverse_app, reverse_involutive.
  reflexivity.
Qed.

Lemma drop_last_app s suffix : drop_last (length suffix) (s ++ suffix) = s.
Proof.
  unfold drop_last. rewrite length_app.
  replace (length s + length suffix - length suffix) with (length s) by lia.
  apply take_app_length.
Qed.

Lemma starts_with_slash s : has_char "/" s = false -> starts_with "/" s = false.
Proof.
  destruct s as [|c s]; simpl; [reflexivity|].
  intros [Hc _]%orb_false_iff. unfold is_char in Hc. rewrite Hc. reflexivity.
Qed.

Lemma os_path_join_relative d name :
  has_char "/" name = false -> os_path_join d name = dir_prefix d ++ name.
Proof.
  intros Hname. unfold os_path_join, dir_prefix.
  rewrite (starts_with_slash name Hname).
  destruct (bool_decide (d = []) || ends_with "/" d); [reflexivity|].
  rewrite <- app_assoc. reflexivity.
Qed.

Lemma dir_prefix_shape d :
  dir_prefix d = [] \/ exists d', dir_prefix d = d' ++ "/".
Proof.
  unfold dir_prefix.
  destruct (bool_decide (d = [])) eqn:Hd, (ends_with "/" d) eqn:He; simpl.
  - left. apply bool_decide_eq_true in Hd. exact Hd.
  - left. apply bool_decide_eq_true in Hd. exact Hd.
  - right. exact (ends_with_inv "/" d He).
  - right. exists d. reflexivity.
Qed.

Lemma take_while_all (p : ascii -> bool) s rest :
  forallb p s = true ->
  match rest with [] => True | c :: _ => p c = false end ->
  take_while p (s ++ rest) = s.
Proof.
  intros Hs Hrest. induction s as [|c s IH]; simpl in *.
  - destruct rest as [|c rest]; [reflexivity|]. simpl. rewrite Hrest. reflexivity.
  - apply andb_true_iff in Hs as [Hc Hs]. rewrite Hc, (IH Hs). reflexivity.
Qed.

Lemma forallb_reverse (p : ascii -> bool) s :
  forallb p (reverse s) = forallb p s.
Proof.
  induction s as [|c s IH]; [reflexivity|].
  rewrite reverse_cons, forallb_app, IH. simpl.
  rewrite andb_true_r. apply andb_comm.
Qed.

Lemma has_char_forallb c s :
  has_char c s = false -> forallb (fun x => negb (is_char c x)) s = true.
Proof.
  induction s as [|d s IH]; simpl; [reflexivity|].
  intros [Hd Hs]%orb_false_iff. rewrite Hd, (IH Hs). reflexivity.
Qed.

Lemma os_path_basename_join d name :
  has_char "/" name = false ->
  os_path_basename (dir_prefix d ++ name) = name.
Proof.
  intros Hname. unfold os_path_basename. rewrite reverse_app.
  rewrite take_while_all.
  - apply reverse_involutive.
  - rewrite forallb_reverse. apply has_char_forallb, Hname.
  - destruct (dir_prefix_shape d) as [->|[d' ->]]; [exact I|].
    rewrite reverse_app. reflexivity.
Qed.

Lemma match_basename_app base suffix :
  has_char newline base = false ->
  match_basename suffix = Some [] ->
  match_basename (base ++ suffix) = Some base.
Proof.
  intros Hbase Hsuffix. induction base as [|c base IH]; [exact Hsuffix|].
  simpl in Hbase. apply orb_false_iff in Hbase as [Hc Hbase].
  simpl app. rewrite match_basename_unfold, Hc, (IH Hbase). reflexivity.
Qed.

Lemma match_basename_run0 base :
  has_char newline base = false ->
  match_basename (base ++ "-0.txt") = Some base.
Proof. intros Hbase. apply match_basename_app; [exact Hbase|reflexivity]. Qed.

Lemma re_findall_basename_run0 base :
  has_char newline base = false ->
  re_findall_basename (base ++ "-0.txt") = [base].
Proof.
  intros Hbase. unfold re_findall_basename.
  rewrite (match_basename_run0 base Hbase). reflexivity.
Qed.

Lemma drop_last_run0 start : drop_last 5 (start ++ "-0.txt") = start ++ "-".
Proof.
  replace (start ++ "-0.txt") with ((start ++ "-") ++ "0.txt")
    by (rewrite <- app_assoc; reflexivity).
  apply (drop_last_app (start ++ "-") "0.txt").
Qed.

Lemma re_sub_run_number_run0 start :
  has_char newline start = false ->
  re_sub_run_number (start ++ "-0.txt") = start ++ "-{}.txt".
Proof.
  intros Hstart. unfold re_sub_run_number.
  assert (Hfinal : ends_with [newline] (start ++ "-0.txt") = false).
  { unfold ends_with. rewrite reverse_app. reflexivity. }
  rewrite Hfinal.
  assert (Hline : drop_last (length (@nil ascii)) (start ++ "-0.txt")
                  = start ++ "-0.txt").
  { unfold drop_last. simpl length. rewrite Nat.sub_0_r. apply firstn_all. }
  rewrite Hline, ends_with_app, has_char_app, Hstart, drop_last_run0.
  change (has_char newline "-0.txt") with false. cbn [andb orb negb].
  rewrite <- app_assoc, app_nil_r. reflexivity.
Qed.

(** ** Formatting a pattern without stray braces *)

Lemma format_scan_text n num (text : list ascii) : forall out_rev rest,
  has_char "{" text = false -> has_char "}" text = false ->
  format_scan n num InText out_rev (text ++ rest)
  = format_scan n num InText (reverse text ++ out_rev) rest.
Proof.
  induction text as [|c text IH]; intros out_rev rest Hopen Hclose; [reflexivity|].
  simpl in Hopen, Hclose.
  apply orb_false_iff in Hopen as [Hc1 Hopen].
  apply orb_false_iff in Hclose as [Hc2 Hclose].
  simpl. rewrite Hc1, Hc2, (IH _ _ Hopen Hclose), reverse_cons, <- app_assoc.
  reflexivity.
Qed.

(** A pattern whose only field is one [{}] formats to the pattern with
    the decimal run number in the place of the field. *)
Lemma format_scan_one_field n (before after : list ascii) :
  plain before = true -> plain after = true ->
  format_scan n NumberingUnset InText [] (before ++ "{}" ++ after)
  = Formatted (before ++ decimal n ++ after).
Proof.
  unfold plain. rewrite !negb_true_iff, !orb_false_iff.
  intros [[_ Hb1] Hb2] [[_ Ha1] Ha2].
  rewrite (format_scan_text n _ before [] _ Hb1 Hb2).
  change (format_scan n NumberingUnset InText (reverse before ++ [])
            (list_ascii_of_string "{}" ++ after))
    with (format_scan n (NumberingAuto 1) InText
            (reverse (decimal n) ++ reverse before ++ []) after).
  rewrite <- (app_nil_r after) at 1.
  rewrite (format_scan_text n _ after _ [] Ha1 Ha2). simpl.
  rewrite app_nil_r, !reverse_app, !reverse_involutive, <- app_assoc.
  reflexivity.
Qed.

Lemma str_format_one_field {A} `{Scalar A} (w : world A) n (before after : list ascii) :
  plain before = true -> plain after = true ->
  str_format w (before ++ "{}" ++ after) n = ret (before ++ decimal n ++ after).
Proof.
  intros Hb Ha. unfold str_format.
  rewrite (format_scan_one_field n before after Hb Ha). reflexivity.
Qed.

(** ** Telling run files apart *)

(** Two strings that agree up to their first [c] agree before it. *)
Lemma first_occurrence (c : ascii) (r r' l l' : list ascii) :
  r ++ c :: l = r' ++ c :: l' -> c ∉ r -> c ∉ r' -> r = r'.
Proof.
  revert r'. induction r as [|x r IH]; intros [|y r']; simpl; intros Heq Hr Hr'.
  - reflexivity.
  - simplify_eq. exfalso. apply Hr'. left.
  - simplify_eq. exfalso. apply Hr. left.
  - simplify_eq. f_equal. apply IH; [assumption| |].
    + intros Hin. apply Hr. right. exact Hin.
    + intros Hin. apply Hr'. right. exact Hin.
Qed.

(** The basename of a run file is determined by the file's name. *)
Lemma run_file_name_inj (base base' : list ascii) i k :
  base ++ "-" ++ decimal i ++ ".txt" = base' ++ "-" ++ decimal k ++ ".txt" ->
  base = base'.
Proof.
  assert (Hdash : forall n, "-"%char ∉ reverse (decimal n ++ ".txt")).
  { intros n Hin. apply elem_of_reverse, elem_of_app in Hin as [Hin|Hin].
    - apply has_char_false in Hin; [exact Hin|]. apply decimal_lacks. reflexivity.
    - apply has_char_false in Hin; [exact Hin|reflexivity]. }
  specialize (Hdash i) as Hi. specialize (Hdash k) as Hk. clear Hdash.
  remember (decimal i ++ ".txt") as ti. remember (decimal k ++ ".txt") as tk.
  intros Heq. apply (f_equal reverse) in Heq.
  rewrite !reverse_app, <- !app_assoc in Heq. simpl in Heq.
  (* the texts after the last dash agree, hence so do the texts before it *)
  pose proof (first_occurrence _ _ _ _ _ Heq Hi Hk) as Htail.
  rewrite Htail in Heq. apply app_inv_head in Heq.
  injection Heq as Heq. apply (inj reverse), Heq.
Qed.

(** ** Discovering the runs of a directory *)

Section Discovery.
Context {A : Type} `{Scalar A}.
Implicit Types (w : world A) (log : list (event A)) (ev : event A).

Lemma glob_iglob_run0 w directory :
  has_magic (glob_directory directory) = false ->
  glob_iglob w (os_path_join directory "*-0.txt")
  = map (os_path_join (glob_directory directory))
        (glob1 w (glob_directory directory)).
Proof.
  unfold glob_iglob, glob_directory.
  destruct (os_path_split _) as [dirname pattern]. simpl.
  intros ->. simpl. apply app_nil_r.
Qed.

Lemma yields_app log log' : yields (log ++ log') = yields log ++ yields log'.
Proof. apply omap_app. Qed.

Lemma yields_load_results fuel w file_name :
  yields (load_results fuel w file_name).1 = [].
Proof.
  assert (Hnone : forall log,
            (forall ev, ev ∈ log -> forall b r, ev <> EvYield b r) ->
            yields log = []).
  { induction log as [|ev log IH]; intros Hall; [reflexivity|].
    unfold yields in *. simpl.
    destruct ev as [p|l|b r|p h rows];
      try (apply IH; intros ev' Hin; apply Hall; right; exact Hin).
    exfalso. apply (Hall (EvYield b r) ltac:(left) b r). reflexivity. }
  apply Hnone. intros ev Hin b r ->.
  apply load_results_events in Hin as [(i & p & Hev & _)|(line & Hev)];
    discriminate.
Qed.

(** The path, basename and pattern of a plain run file [base-0.txt]. *)
Lemma run0_pathname d base :
  has_char "/" (base ++ "-0.txt") = false ->
  has_char newline (dir_prefix d ++ base) = false ->
  os_path_basename (os_path_join d (base ++ "-0.txt")) = base ++ "-0.txt"
  /\ re_findall_basename (base ++ "-0.txt") = [base]
  /\ re_sub_run_number (os_path_join d (base ++ "-0.txt"))
     = (dir_prefix d ++ base) ++ "-{}.txt".
Proof.
  intros Hslash Hnl.
  rewrite (os_path_join_relative d _ Hslash).
  split; [apply os_path_basename_join, Hslash|].
  split.
  - apply re_findall_basename_run0.
    rewrite has_char_app in Hnl. apply orb_false_iff in Hnl as [_ Hnl]. exact Hnl.
  - rewrite app_assoc. apply re_sub_run_number_run0, Hnl.
Qed.

(** One turn of the generator on a plain run file whose runs load. *)
Lemma load_directory_item_run0 fuel w d base log results :
  has_char "/" (base ++ "-0.txt") = false ->
  has_char newline (dir_prefix d ++ base) = false ->
  load_results fuel w (re_sub_run_number (os_path_join d (base ++ "-0.txt")))
  = (log, Ret results) ->
  load_directory_item fuel w (os_path_join d (base ++ "-0.txt"))
  = (EvPrint ("Loading " ++ base) :: log ++ [EvYield base results],
     Ret (base, results)).
Proof.
  intros Hslash Hnl Hload.
  destruct (run0_pathname d base Hslash Hnl) as (Hbase & Hfind & _).
  unfold load_directory_item. rewrite Hbase, Hfind, Hload. reflexivity.
Qed.

(** The events of one turn of the generator. *)
Lemma load_directory_item_events fuel w pathname ev :
  ev ∈ (load_directory_item fuel w pathname).1 ->
  exists basename,
    re_findall_basename (os_path_basename pathname) = [basename]
    /\ (ev = EvPrint ("Loading " ++ basename)
        \/ ev ∈ (load_results fuel w (re_sub_run_number pathname)).1
        \/ exists results, ev = EvYield basename results).
Proof.
  unfold load_directory_item.
  destruct (re_findall_basename _) as [|basename [|? ?]];
    try (intros Hin; inversion Hin; fail).
  rewrite bind_log. simpl. rewrite bind_log.
  intros [Hin|Hin]%elem_of_cons; exists basename; (split; [reflexivity|]).
  { left. exact Hin. }
  apply elem_of_app in Hin as [Hin|Hin]; [right; left; exact Hin|].
  destruct (load_results fuel w _).2 as [results|e|]; try (inversion Hin; fail).
  simpl in Hin. apply list_elem_of_singleton in Hin.
  right; right. exists results. exact Hin.
Qed.

Lemma plain_app s1 s2 : plain (s1 ++ s2) = plain s1 && plain s2.
Proof.
  unfold plain. rewrite !has_char_app.
  destruct (has_char newline s1), (has_char "{" s1), (has_char "}" s1),
    (has_char newline s2), (has_char "{" s2), (has_char "}" s2); reflexivity.
Qed.

Lemma plain_dir_prefix d : plain d = true -> plain (dir_prefix d) = true.
Proof.
  intros Hd. unfold dir_prefix.
  destruct (bool_decide (d = []) || ends_with "/" d); [exact Hd|].
  rewrite plain_app, Hd. reflexivity.
Qed.

Lemma plain_newline s : plain s = true -> has_char newline s = false.
Proof.
  unfold plain. rewrite negb_true_iff, !orb_false_iff. intros [[Hnl _] _]. exact Hnl.
Qed.

(** What is known of a name that [glob] kept and that is plain. *)
Lemma run0_name_shape d name :
  plain d = true -> plain name = true -> has_char "/" name = false ->
  fnmatch_run0 name = true ->
  exists base,
    name = base ++ "-0.txt"
    /\ has_char "/" (base ++ "-0.txt") = false
    /\ has_char newline (dir_prefix d ++ base) = false
    /\ plain ((dir_prefix d ++ base) ++ "-") = true.
Proof.
  intros Hd Hname Hslash [base ->]%ends_with_inv. exists base.
  rewrite plain_app in Hname. apply andb_true_iff in Hname as [Hbase _].
  repeat split; [exact Hslash| |].
  - rewrite has_char_app, (plain_newline _ (plain_dir_prefix d Hd)),
      (plain_newline _ Hbase). reflexivity.
  - rewrite !plain_app, (plain_dir_prefix d Hd), Hbase. reflexivity.
Qed.

Lemma glob1_match w d :
  Forall (fun name => fnmatch_run0 name = true) (glob1 w d).
Proof.
  apply Forall_forall. intros name [Hkeep _]%list_elem_of_filter.
  apply andb_True in Hkeep as [_ Hmatch]. apply Is_true_true, Hmatch.
Qed.

(** The generator's turns on plain run files whose runs all load. *)
Lemma for_each_run0 fuel w d (names : list (list ascii)) :
  plain d = true ->
  Forall (fun name => fnmatch_run0 name = true) names ->
  Forall (fun name => plain name = true /\ has_char "/" name = false) names ->
  Forall (fun name => exists log results,
            load_results fuel w (re_sub_run_number (os_path_join d name))
            = (log, Ret results)) names ->
  let run := for_each (map (os_path_join d) names)
               (fun pathname =>
                  item ← load_directory_item fuel w pathname; ret tt) in
  run.2 = Ret tt
  /\ Forall2 (fun name item =>
                name = item.1 ++ "-0.txt"
                /\ exists log,
                     load_results fuel w (re_sub_run_number (os_path_join d name))
                     = (log, Ret item.2))
        names (yields run.1).
Proof.
  intros Hd Hmatch Hplain Hloads.
  induction names as [|name names IH]; simpl.
  { split; [reflexivity|constructor]. }
  inversion Hmatch as [|? ? Hm Hmatch']; subst.
  inversion Hplain as [|? ? [Hp Hs] Hplain']; subst.
  inversion Hloads as [|? ? (log & results & Hload) Hloads']; subst.
  destruct (IH Hmatch' Hplain' Hloads') as [IHret IHyields]. clear IH.
  destruct (run0_name_shape d name Hd Hp Hs Hm) as (base & -> & Hslash & Hnl & _).
  rewrite (bind_Ret _ _ (EvPrint ("Loading " ++ base) :: log ++ [EvYield base results]) tt).
  2:{ rewrite (bind_Ret _ _ _ _ (load_directory_item_run0 fuel w d base log results
                                   Hslash Hnl Hload)).
      simpl. rewrite app_nil_r. reflexivity. }
  simpl. split; [exact IHret|].
  assert (Hlog : yields log = []).
  { pose proof (yields_load_results fuel w
                  (re_sub_run_number (os_path_join d (base ++ "-0.txt")))) as Hy.
    rewrite Hload in Hy. exact Hy. }
  change (EvPrint ("Loading " ++ base) :: (log ++ [EvYield base results])
          ++ ?rest) with ([EvPrint ("Loading " ++ base)] ++ (log ++ [EvYield base results]) ++ rest).
  rewrite !yields_app, Hlog. simpl. constructor; [|exact IHyields].
  simpl. split; [reflexivity|]. exists log. exact Hload.
Qed.

(** The events of one turn of the generator on a plain run file: a
    yield carries the file's basename, and a read is of a file of the
    same basename. *)
Lemma load_directory_item_run0_events fuel w d base ev :
  has_char "/" (base ++ "-0.txt") = false ->
  has_char newline (dir_prefix d ++ base) = false ->
  plain ((dir_prefix d ++ base) ++ "-") = true ->
  ev ∈ (load_directory_item fuel w (os_path_join d (base ++ "-0.txt"))).1 ->
  (exists line, ev = EvPrint line)
  \/ (exists results, ev = EvYield base results)
  \/ (exists i, ev = EvRead (dir_prefix d ++ base ++ "-" ++ decimal i ++ ".txt")).
Proof.
  intros Hslash Hnl Hplain Hin.
  destruct (run0_pathname d base Hslash Hnl) as (Hbase & Hfind & Hsub).
  apply load_directory_item_events in Hin as (basename & Hname & Hev).
  rewrite Hbase, Hfind in Hname. injection Hname as <-.
  destruct Hev as [->|[Hin|[results ->]]]; [left; eauto| |right; left; eauto].
  apply load_results_events in Hin as [(i & path & -> & Hfmt)|(line & ->)];
    [|left; eauto].
  right; right. exists i. f_equal.
  rewrite Hsub in Hfmt.
  change ((dir_prefix d ++ base) ++ list_ascii_of_string "-{}.txt")
    with ((dir_prefix d ++ base) ++ list_ascii_of_string "-"
          ++ list_ascii_of_string "{}" ++ list_ascii_of_string ".txt") in Hfmt.
  rewrite app_assoc in Hfmt.
  rewrite (str_format_one_field w i _ ".txt" Hplain eq_refl) in Hfmt.
  injection Hfmt as <-. rewrite <- !app_assoc. reflexivity.
Qed.

(** C10, as the code has it.  Let [d] be the directory [glob] lists,
    free of magic characters, newlines and braces, and let [names] be
    the names in it that are not hidden and end in [-0.txt]; let these
    names be free of newlines and braces, and let the runs of each of
    them load.  Then [load_directory] runs to its end and yields
    exactly one pair per name, in the order of the listing: the name
    without [-0.txt], and what [load_results] returns for its pattern.
    A basename that has no visible file [base-0.txt] in the listing is
    never yielded, and none of its files [base-k.txt] is ever read. *)
Theorem load_directory_discovers fuel (w : world A) directory :
  let d := glob_directory directory in
  let names := glob1 w d in
  let run := load_directory fuel w directory (fun _ => ret tt) in
  has_magic d = false ->
  plain d = true ->
  Forall (fun name => plain name = true /\ has_char "/" name = false) names ->
  Forall (fun name => exists log results,
            load_results fuel w (re_sub_run_number (os_path_join d name))
            = (log, Ret results)) names ->
  run.2 = Ret tt
  /\ Forall2 (fun name item =>
                name = item.1 ++ "-0.txt"
                /\ exists log,
                     load_results fuel w (re_sub_run_number (os_path_join d name))
                     = (log, Ret item.2))
        names (yields run.1)
  /\ forall base,
       has_char "/" base = false -> base ++ "-0.txt" ∉ names ->
       (forall results, EvYield base results ∉ run.1)
       /\ (forall k, EvRead (os_path_join d (base ++ "-" ++ decimal k ++ ".txt"))
                       ∉ run.1).
Proof.
  intros d names run Hmagic Hd Hplain Hloads.
  assert (Hrun : run = for_each (map (os_path_join d) names)
                         (fun pathname =>
                            item ← load_directory_item fuel w pathname; ret tt)).
  { unfold run, load_directory. fold d.
    rewrite (glob_iglob_run0 w directory Hmagic). reflexivity. }
  pose proof (glob1_match w d) as Hmatch. fold names in Hmatch.
  destruct (for_each_run0 fuel w d names Hd Hmatch Hplain Hloads) as [Hret Hyields].
  rewrite <- Hrun in Hret, Hyields.
  split; [exact Hret|]. split; [exact Hyields|].
  intros base Hbase Hnotin.
  (* every event of the run belongs to the turn on some [name] *)
  assert (Hturn : forall ev, ev ∈ run.1 ->
            exists base', base' ++ "-0.txt" ∈ names
              /\ ((exists line, ev = EvPrint line)
                  \/ (exists results, ev = EvYield base' results)
                  \/ (exists i, ev = EvRead (dir_prefix d ++ base' ++ "-"
                                             ++ decimal i ++ ".txt")))).
  { intros ev Hin. rewrite Hrun in Hin.
    apply for_each_event in Hin as (pathname & Hpath & Hin).
    apply list_elem_of_fmap in Hpath as (name & -> & Hname).
    rewrite bind_log, elem_of_app in Hin. destruct Hin as [Hin|Hin].
    2:{ destruct (load_directory_item _ _ _).2; inversion Hin. }
    rewrite Forall_forall in Hmatch, Hplain.
    destruct (Hplain name Hname) as [Hp Hs].
    destruct (run0_name_shape d name Hd Hp Hs (Hmatch name Hname))
      as (base' & -> & Hslash & Hnl & Hpl).
    exists base'. split; [exact Hname|].
    exact (load_directory_item_run0_events fuel w d base' ev Hslash Hnl Hpl Hin). }
  split.
  - intros results Hin.
    destruct (Hturn _ Hin) as (base' & Hname & [(line & Hev)|[(r & Hev)|(i & Hev)]]);
      try discriminate.
    injection Hev as -> _. exact (Hnotin Hname).
  - intros k Hin.
    destruct (Hturn _ Hin) as (base' & Hname & [(line & Hev)|[(r & Hev)|(i & Hev)]]);
      try discriminate.
    injection Hev as Hev.
    rewrite os_path_join_relative in Hev.
    2:{ rewrite has_char_app, Hbase. simpl.
        rewrite has_char_app, decimal_lacks by reflexivity. reflexivity. }
    apply app_inv_head, run_file_name_inj in Hev. subst base'.
    exact (Hnotin Hname).
Qed.

End Discovery.


Lemma load_directory_discovers_witness :
  (load_directory 5 two_runs "d" (fun _ => ret tt)).2 = Ret tt
  /\ yields (load_directory 5 two_runs "d" (fun _ => ret tt)).1
     = [("run" : list ascii, [[1; 2]; [3; 5]]%float)]
  /\ (forall results,
        EvYield "late" results ∉ (load_directory 5 two_runs "d" (fun _ => ret tt)).1)
  /\ (forall k,
        EvRead (os_path_join "d" ("late" ++ "-" ++ decimal k ++ ".txt"))
          ∉ (load_directory 5 two_runs "d" (fun _ => ret tt)).1).
Proof.
  destruct (load_directory_discovers 5 two_runs "d")
    as (Hret & _ & Hothers).
  - reflexivity.
  - reflexivity.
  - vm_compute. repeat constructor.
  - vm_compute. repeat constructor. eexists _, _. reflexivity.
  - split; [exact Hret|]. split; [vm_compute; reflexivity|].
    apply (Hothers "late"); [reflexivity|].
    vm_compute. intros Hin. apply list_elem_of_singleton in Hin. discriminate.
Defined.

(** C10 fails as stated.  A hidden file [.seed-0.txt] ends in [-0.txt]
    and holds a table, yet [glob] skips it and nothing is yielded; and
    when the first of two run files holds no numbers, the generator
    raises before it yields anything, also for the second; and a name
    with braces makes [str.format] raise before any file is read. *)
Lemma load_directory_misses_files :
  fnmatch_run0 ".seed-0.txt" = true
  /\ files hidden_run !! ("d/.seed-0.txt" : list ascii) = Some (Table [1; 2]%float)
  /\ load_directory 5 hidden_run "d" (fun _ => ret tt) = ([], Ret tt)
  /\ Forall (fun name => fnmatch_run0 name = true) (listdir broken_first "d")
  /\ load_directory 5 broken_first "d" (fun _ => ret tt)
     = ([EvPrint "Loading a"; EvRead "d/a-0.txt"], Raise ValueError)
  /\ load_directory 5 braced_run "d" (fun _ => ret tt)
     = ([EvPrint "Loading x{y}"], Raise KeyError).
Proof.
  split; [reflexivity|]. split; [reflexivity|]. split; [vm_compute; reflexivity|].
  split; [repeat constructor|]. split; vm_compute; reflexivity.
Qed.

(** ** Writing the aggregated files *)

Section Writing.
Context {A : Type} `{Scalar A}.
Implicit Types (w : world A) (log : list (event A)) (ev : event A).









End Writing.


(** ** Every way the loading loop can end *)

Section Loading.
Context {A : Type} `{Scalar A}.
Implicit Types (w : world A) (log : list (event A)).

(** The loop on a pattern that formats to [path_of n] for run [n]. *)
Section Formatted.
Variables (w : world A) (file_name : list ascii) (path_of : nat -> list ascii).
Hypothesis Hformat : forall n, str_format w file_name n = ret (path_of n).

(** One turn of the loop, by what is stored under the path. *)
Lemma load_attempt fuel n results :
  load_results_loop (S fuel) w file_name n results
  = match files w !! path_of n with
    | Some (Table run) =>
        let '(log, o) := load_results_loop fuel w file_name (S n) (results ++ [run]) in
        (EvRead (path_of n) :: log, o)
    | Some Malformed => ([EvRead (path_of n)], Raise ValueError)
    | _ => ([EvRead (path_of n)], Ret (n, results))
    end.
Proof.
  rewrite load_results_loop_unfold.
  destruct (files w !! path_of n) as [[run| | |]|] eqn:Hfile.
  - rewrite (load_attempt_table w file_name n _ run (Hformat n) Hfile).
    unfold mbind, prog_bind, bind.
    destruct (load_results_loop fuel w file_name (S n) (results ++ [run])).
    reflexivity.
  - rewrite (load_attempt_error w file_name n _ PermissionError (Hformat n))
      by (rewrite Hfile; reflexivity). reflexivity.
  - rewrite (load_attempt_error w file_name n _ ValueError (Hformat n))
      by (rewrite Hfile; reflexivity). reflexivity.
  - rewrite (load_attempt_error w file_name n _ IsADirectoryError (Hformat n))
      by (rewrite Hfile; reflexivity). reflexivity.
  - rewrite (load_attempt_error w file_name n _ FileNotFoundError (Hformat n))
      by (rewrite Hfile; reflexivity). reflexivity.
Qed.

(** When the loop returns, it has loaded the tables of consecutive run
    numbers and stopped at the first file that could not be opened. *)
Lemma load_results_loop_returns fuel : forall n results log k res,
  load_results_loop fuel w file_name n results = (log, Ret (k, res)) ->
  exists runs : list (list A),
    k = n + length runs
    /\ res = results ++ runs
    /\ (forall i run, runs !! i = Some run ->
          files w !! path_of (n + i) = Some (Table run))
    /\ (exists e, loadtxt_error (files w !! path_of k) = Some e
                  /\ is_IOError e = true)
    /\ log = map (fun i => EvRead (path_of i)) (seq n (S (length runs))).
Proof.
  induction fuel as [|fuel IH]; intros n results log k res; [discriminate|].
  rewrite load_attempt.
  destruct (files w !! path_of n) as [[run| | |]|] eqn:Hfile;
    try (intros [= <- <- <-]; exists []; simpl;
         rewrite Nat.add_0_r, app_nil_r, Hfile;
         repeat split; eauto; intros i run Hi; rewrite lookup_nil in Hi; discriminate);
    try discriminate.
  destruct (load_results_loop fuel w file_name (S n) (results ++ [run]))
    as [log' o] eqn:Hloop.
  intros [= <- ->].
  destruct (IH _ _ _ _ _ Hloop) as (runs & -> & -> & Hruns & Hlast & ->).
  exists (run :: runs). simpl.
  split; [lia|]. split; [rewrite <- app_assoc; reflexivity|].
  split.
  { intros [|i] r Hi; simpl in Hi.
    - injection Hi as <-. rewrite Nat.add_0_r. exact Hfile.
    - replace (n + S i) with (S n + i) by lia. apply Hruns, Hi. }
  split; [|reflexivity].
  replace (n + S (length runs)) with (S n + length runs) by lia. exact Hlast.
Qed.

(** As long as the loop is still running, every file it asked for was
    a table. *)
Lemma load_results_loop_running fuel : forall n results,
  (load_results_loop fuel w file_name n results).2 = Diverge ->
  forall i, i < fuel -> exists run, files w !! path_of (n + i) = Some (Table run).
Proof.
  induction fuel as [|fuel IH]; intros n results Hrun i Hi; [lia|].
  rewrite load_attempt in Hrun.
  destruct (files w !! path_of n) as [[run| | |]|] eqn:Hfile; try discriminate.
  destruct (load_results_loop fuel w file_name (S n) (results ++ [run]))
    as [log' o] eqn:Hloop.
  simpl in Hrun. subst o.
  destruct i as [|i].
  - exists run. rewrite Nat.add_0_r. exact Hfile.
  - replace (n + S i) with (S n + i) by lia.
    apply (IH (S n) (results ++ [run])); [rewrite Hloop; reflexivity|lia].
Qed.

(** The loop raises nothing but the [ValueError] of a malformed file. *)
Lemma load_results_loop_raises fuel : forall n results e,
  (load_results_loop fuel w file_name n results).2 = Raise e -> e = ValueError.
Proof.
  induction fuel as [|fuel IH]; intros n results e; [discriminate|].
  rewrite load_attempt.
  destruct (files w !! path_of n) as [[run| | |]|] eqn:Hfile; try discriminate.
  - destruct (load_results_loop fuel w file_name (S n) (results ++ [run]))
      as [log' o] eqn:Hloop.
    simpl. intros ->. apply (IH (S n) (results ++ [run])). rewrite Hloop. reflexivity.
  - intros [= <-]. reflexivity.
Qed.

(** [load_results], when it returns: the rows are the tables of the
    run numbers below their count, the file of the next run number
    could not be opened, and these files were read in order. *)
Lemma load_results_formatted_returns fuel log results :
  load_results fuel w file_name = (log, Ret results) ->
  (forall i run, results !! i = Some run ->
     files w !! path_of i = Some (Table run))
  /\ (exists e, loadtxt_error (files w !! path_of (length results)) = Some e
                /\ is_IOError e = true)
  /\ log = map (fun i => EvRead (path_of i)) (seq 0 (S (length results)))
           ++ [EvPrint ("Loaded " ++ decimal (length results) ++ " runs")].
Proof.
  intros Hload. unfold load_results in Hload.
  destruct (load_results_loop fuel w _ 0 []) as [log' [[n res]|e|]] eqn:Hloop;
    try discriminate.
  destruct (load_results_loop_returns fuel _ _ _ _ _ Hloop)
    as (runs & -> & -> & Hruns & Hlast & ->).
  unfold mbind, prog_bind, bind, print, emit, ret, np_array in Hload; simpl in Hload.
  injection Hload as <- <-. simpl.
  split; [exact Hruns|]. split; [exact Hlast|]. reflexivity.
Qed.

End Formatted.

(** A pattern without braces formats to itself, whatever the run
    number. *)
Lemma str_format_no_field w (file_name : list ascii) n :
  has_char "{" file_name = false -> has_char "}" file_name = false ->
  str_format w file_name n = ret file_name.
Proof.
  intros Hopen Hclose. unfold str_format.
  rewrite <- (app_nil_r file_name) at 1.
  rewrite (format_scan_text n _ file_name [] [] Hopen Hclose). simpl.
  rewrite app_nil_r, reverse_involutive. reflexivity.
Qed.

(** A pattern that names the same table for every run number keeps the
    loop loading it. *)
Lemma load_results_same_file w (file_name : list ascii) run :
  has_char "{" file_name = false -> has_char "}" file_name = false ->
  files w !! file_name = Some (Table run) ->
  forall fuel,
    load_results fuel w file_name = (replicate fuel (EvRead file_name), Diverge).
Proof.
  intros Hopen Hclose Hfile fuel.
  assert (Hloop : forall n results,
            load_results_loop fuel w file_name n results
            = (replicate fuel (EvRead file_name), Diverge)).
  { induction fuel as [|fuel IH]; intros n results; [reflexivity|].
    rewrite (load_attempt w file_name (fun _ => file_name)
               (fun k => str_format_no_field w file_name k Hopen Hclose)).
    rewrite Hfile, IH. reflexivity. }
  unfold load_results. rewrite Hloop. reflexivity.
Qed.

(** Distinct keys that are all bound are no more than the bindings. *)
Lemma bound_keys_size {V} (m : gmap (list ascii) V) (key : nat -> list ascii) n :
  (forall i k, key i = key k -> i = k) ->
  (forall i, i < n -> is_Some (m !! key i)) ->
  n <= size m.
Proof.
  intros Hinj Hbound.
  assert (Hnodup : NoDup (map key (seq 0 n))).
  { apply NoDup_fmap_2; [intros i k; apply Hinj|apply NoDup_seq]. }
  assert (Hlen : length (map key (seq 0 n)) = n)
    by (rewrite length_map; apply length_seq).
  rewrite <- Hlen, <- size_dom.
  rewrite <- (size_list_to_set (C := gset (list ascii)) _ Hnodup).
  apply subseteq_size. intros p Hp.
  apply elem_of_list_to_set, list_elem_of_fmap in Hp as (i & -> & Hi).
  apply elem_of_seq in Hi. apply elem_of_dom, Hbound. lia.
Qed.

Lemma decimal_inj i k : decimal i = decimal k -> i = k.
Proof.
  unfold decimal. intros Heq.
  apply (f_equal string_of_list_ascii) in Heq.
  rewrite !string_of_list_ascii_of_string in Heq.
  apply (inj pretty) in Heq. exact Heq.
Qed.

(** Different run numbers name different files. *)
Lemma run_path_inj (before after : list ascii) i k :
  before ++ decimal i ++ after = before ++ decimal k ++ after -> i = k.
Proof.
  intros Heq. apply app_inv_head, app_inv_tail in Heq. apply decimal_inj, Heq.
Qed.

(** Whenever [load_results] returns for a pattern with one field, its
    [k] rows are the tables stored under the names of the run numbers
    [0 .. k-1], the file of run number [k] could not be opened (it is
    missing, unreadable or a directory), the files of [0 .. k] were
    read in this order and nothing else was, and the count that was
    printed is the number of rows. *)
Theorem load_results_returns fuel w (before after : list ascii) log results :
  plain before = true -> plain after = true ->
  load_results fuel w (before ++ "{}" ++ after) = (log, Ret results) ->
  let path i := before ++ decimal i ++ after in
  let k := length results in
  (forall i run, results !! i = Some run -> files w !! path i = Some (Table run))
  /\ (exists e, loadtxt_error (files w !! path k) = Some e /\ is_IOError e = true)
  /\ log = map (fun i => EvRead (path i)) (seq 0 (S k))
           ++ [EvPrint ("Loaded " ++ decimal k ++ " runs")].
Proof.
  intros Hb Ha Hload path k.
  apply (load_results_formatted_returns w _ path
           (fun n => str_format_one_field w n before after Hb Ha) fuel).
  exact Hload.
Qed.

(** The loop of [load_results] ends on every finite file store: for a
    pattern with one field, one attempt more than there are files is
    enough for [load_results] to return, or to raise the [ValueError]
    of a malformed file. *)
Theorem load_results_terminates fuel w (before after : list ascii) :
  plain before = true -> plain after = true ->
  size (files w) < fuel ->
  let run := load_results fuel w (before ++ "{}" ++ after) in
  (exists results, run.2 = Ret results) \/ run.2 = Raise ValueError.
Proof.
  intros Hb Ha Hfuel run.
  pose proof (fun n => str_format_one_field w n before after Hb Ha) as Hformat.
  pose proof (load_results_loop_running w _ _ Hformat fuel 0 []) as Hrunning.
  pose proof (load_results_loop_raises w _ _ Hformat fuel 0 []) as Hraises.
  unfold run, load_results.
  destruct (load_results_loop fuel w _ 0 []) as [log' [[n res]|e|]] eqn:Hloop.
  - left. exists (np_array res). reflexivity.
  - right. simpl. rewrite (Hraises e eq_refl). reflexivity.
  - exfalso. specialize (Hrunning eq_refl).
    assert (Hsize : fuel <= size (files w)); [|lia].
    apply (bound_keys_size _ (fun i => before ++ decimal i ++ after)).
    + intros i k. apply run_path_inj.
    + intros i Hi. destruct (Hrunning i Hi) as [r Hfile]. exists (Table r). exact Hfile.
Qed.

(** A pattern without a replacement field that names a table makes
    [load_results] load that file again and again: whatever the fuel,
    the loop is still running when it is spent, and nothing is
    returned or printed. *)
Theorem load_results_hangs fuel w (file_name : list ascii) run :
  has_char "{" file_name = false -> has_char "}" file_name = false ->
  files w !! file_name = Some (Table run) ->
  load_results fuel w file_name = (replicate fuel (EvRead file_name), Diverge).
Proof.
  intros Hopen Hclose Hfile.
  apply (load_results_same_file w file_name run Hopen Hclose Hfile).
Qed.

End Loading.

Lemma load_results_returns_witness :
  (forall i run, [[1; 2]; [3; 5]]%float !! i = Some run ->
     files two_runs !! ("d/run-" ++ decimal i ++ ".txt") = Some (Table run))
  /\ (exists e, loadtxt_error (files two_runs !! ("d/run-" ++ decimal 2 ++ ".txt"))
                = Some e
                /\ is_IOError e = true)
  /\ [EvRead "d/run-0.txt"; EvRead "d/run-1.txt"; EvRead "d/run-2.txt";
      EvPrint "Loaded 2 runs"]
     = map (fun i => EvRead ("d/run-" ++ decimal i ++ ".txt")) (seq 0 3)
       ++ [EvPrint ("Loaded " ++ decimal 2 ++ " runs") : event float].
Proof.
  apply (load_results_returns 5 two_runs "d/run-" ".txt" _ [[1; 2]; [3; 5]]%float
           eq_refl eq_refl).
  vm_compute. reflexivity.
Defined.

Lemma load_results_terminates_witness :
  (exists results, (load_results 5 two_runs "d/run-{}.txt").2 = Ret results)
  \/ (load_results 5 two_runs "d/run-{}.txt").2 = Raise ValueError.
Proof.
  apply (load_results_terminates 5 two_runs "d/run-" ".txt");
    [reflexivity|reflexivity|vm_compute; lia].
Defined.

Lemma load_results_hangs_witness :
  load_results 3 two_runs "d/run-0.txt"
  = ([EvRead "d/run-0.txt"; EvRead "d/run-0.txt"; EvRead "d/run-0.txt"], Diverge).
Proof.
  apply (load_results_hangs 3 two_runs "d/run-0.txt" [1; 2]%float);
    reflexivity.
Defined.

(** ** Run files that [glob] found *)

Section Discovered.
Context {A : Type} `{Scalar A}.
Implicit Types (w : world A) (log : list (event A)) (ev : event A).

(** The pattern of a plain run file [base-0.txt] in [d] formats to the
    files [base-n.txt] in [d]; for [n = 0] this is the file itself. *)
Lemma run0_pattern w d base :
  plain d = true -> plain base = true -> has_char "/" base = false ->
  let path n := dir_prefix d ++ base ++ "-" ++ decimal n ++ ".txt" in
  os_path_join d (base ++ "-0.txt") = path 0
  /\ os_path_basename (path 0) = base ++ "-0.txt"
  /\ re_findall_basename (base ++ "-0.txt") = [base]
  /\ forall n, str_format w (re_sub_run_number (path 0)) n = ret (path n).
Proof.
  intros Hd Hbase Hslash path.
  assert (Hname : has_char "/" (base ++ "-0.txt") = false).
  { rewrite has_char_app, Hslash. reflexivity. }
  assert (Hnl : has_char newline (dir_prefix d ++ base) = false).
  { rewrite has_char_app, (plain_newline _ (plain_dir_prefix d Hd)),
      (plain_newline _ Hbase). reflexivity. }
  assert (Hpl : plain ((dir_prefix d ++ base) ++ "-") = true).
  { rewrite !plain_app, (plain_dir_prefix d Hd), Hbase. reflexivity. }
  destruct (run0_pathname d base Hname Hnl) as (Hbn & Hfind & Hsub).
  assert (Hjoin : os_path_join d (base ++ "-0.txt") = path 0)
    by apply (os_path_join_relative d _ Hname).
  rewrite Hjoin in Hbn, Hsub.
  split; [exact Hjoin|]. split; [exact Hbn|]. split; [exact Hfind|].
  intros n. rewrite Hsub.
  change ((dir_prefix d ++ base) ++ list_ascii_of_string "-{}.txt")
    with ((dir_prefix d ++ base) ++ list_ascii_of_string "-"
          ++ list_ascii_of_string "{}" ++ list_ascii_of_string ".txt").
  rewrite app_assoc.
  rewrite (str_format_one_field w n _ ".txt" Hpl eq_refl).
  unfold path. rewrite <- !app_assoc. reflexivity.
Qed.

(** The substitution, the formatting and the loading fit together: the
    first file [load_results] asks for is the file [glob] found.  So
    when one turn of [load_directory] yields for a plain run file
    [base-0.txt], the name it yields is [base], and the array starts
    with the table of that very file; the array is empty exactly when
    the file could not be opened, and a malformed file yields nothing. *)
Theorem load_directory_item_run0_file fuel w d base log name results :
  plain d = true -> plain base = true -> has_char "/" base = false ->
  load_directory_item fuel w (os_path_join d (base ++ "-0.txt"))
  = (log, Ret (name, results)) ->
  name = base
  /\ match files w !! os_path_join d (base ++ "-0.txt") with
     | Some (Table run) => results !! 0 = Some run
     | Some Malformed => False
     | _ => results = []
     end.
Proof.
  intros Hd Hbase Hslash Hitem.
  destruct (run0_pattern w d base Hd Hbase Hslash) as (Hjoin & Hbn & Hfind & Hformat).
  rewrite Hjoin in Hitem |- *.
  apply load_directory_item_Ret in Hitem as (Hname & log' & Hload).
  rewrite Hbn, Hfind in Hname. injection Hname as <-.
  split; [reflexivity|].
  destruct (load_results_formatted_returns w _ _ Hformat fuel _ _ Hload)
    as (Hruns & (e & He & Hio) & _).
  destruct results as [|run results].
  - simpl in He.
    destruct (files w !! _) as [[r| | |]|]; simplify_eq/=; reflexivity.
  - rewrite (Hruns 0 run eq_refl). reflexivity.
Qed.

(** A newline in the name of the directory keeps [re.sub] from
    matching, since the dot of the pattern matches no newline: the
    pattern is then the pathname itself, without a field, and for a
    run file that holds a table [load_directory] prints its line and
    never gets past the loop of [load_results]. *)
Theorem load_directory_newline fuel w directory base rest run
    (consumer : list ascii * list (list A) -> prog A unit) :
  let d := glob_directory directory in
  let pathname := os_path_join d (base ++ "-0.txt") in
  has_magic d = false ->
  has_char newline d = true -> has_char "{" d = false -> has_char "}" d = false ->
  plain base = true -> has_char "/" base = false ->
  glob1 w d = (base ++ "-0.txt") :: rest ->
  files w !! pathname = Some (Table run) ->
  load_directory fuel w directory consumer
  = (EvPrint ("Loading " ++ base) :: replicate fuel (EvRead pathname), Diverge).
Proof.
  intros d pathname Hmagic Hnl Hopen Hclose Hbase Hslash Hglob Hfile.
  assert (Hname : has_char "/" (base ++ "-0.txt") = false).
  { rewrite has_char_app, Hslash. reflexivity. }
  assert (Hjoin : pathname = dir_prefix d ++ base ++ "-0.txt")
    by apply (os_path_join_relative d _ Hname).
  assert (Hprefix : forall c, c <> "/"%char ->
            has_char c (dir_prefix d) = has_char c d).
  { intros c Hc. unfold dir_prefix.
    destruct (bool_decide (d = []) || ends_with "/" d); [reflexivity|].
    rewrite has_char_app. simpl.
    apply is_char_false in Hc. rewrite Hc. rewrite !orb_false_r. reflexivity. }
  assert (Hsub : re_sub_run_number pathname = pathname).
  { unfold re_sub_run_number.
    assert (Hfinal : ends_with [newline] pathname = false).
    { rewrite Hjoin, app_assoc. unfold ends_with. rewrite reverse_app. reflexivity. }
    rewrite Hfinal.
    assert (Hline : drop_last (length (@nil ascii)) pathname = pathname).
    { unfold drop_last. simpl length. rewrite Nat.sub_0_r. apply firstn_all. }
    rewrite Hline.
    assert (Hhas : has_char newline pathname = true).
    { rewrite Hjoin, has_char_app, (Hprefix newline), Hnl by discriminate. reflexivity. }
    rewrite Hhas, andb_false_r. reflexivity. }
  assert (Hbn : os_path_basename pathname = base ++ "-0.txt").
  { rewrite Hjoin. apply os_path_basename_join, Hname. }
  assert (Hfind : re_findall_basename (base ++ "-0.txt") = [base]).
  { apply re_findall_basename_run0, plain_newline, Hbase. }
  assert (Hbraces : has_char "{" pathname = false /\ has_char "}" pathname = false).
  { unfold plain in Hbase. rewrite negb_true_iff, !orb_false_iff in Hbase.
    destruct Hbase as [[_ Hb1] Hb2].
    rewrite Hjoin, !has_char_app, !Hprefix, Hopen, Hclose, Hb1, Hb2 by discriminate.
    split; reflexivity. }
  destruct Hbraces as [Hb1 Hb2].
  unfold load_directory. fold d.
  rewrite (glob_iglob_run0 w directory Hmagic). fold d. rewrite Hglob.
  cbn [map for_each]. fold pathname.
  unfold load_directory_item. rewrite Hsub, Hbn, Hfind.
  rewrite (load_results_same_file w pathname run Hb1 Hb2 Hfile fuel). reflexivity.
Qed.

End Discovered.

Lemma load_directory_item_run0_file_witness :
  ("run" : list ascii) = "run"
  /\ match files two_runs !! os_path_join "d" ("run" ++ "-0.txt") with
     | Some (Table run) => [[1; 2]; [3; 5]]%float !! 0 = Some run
     | Some Malformed => False
     | _ => [[1; 2]; [3; 5]]%float = []
     end.
Proof.
  apply (load_directory_item_run0_file 5 two_runs "d" "run"
           [EvPrint "Loading run";
            EvRead "d/run-0.txt"; EvRead "d/run-1.txt"; EvRead "d/run-2.txt";
            EvPrint "Loaded 2 runs";
            EvYield "run" [[1; 2]; [3; 5]]%float]);
    [reflexivity|reflexivity|reflexivity|].
  vm_compute. reflexivity.
Defined.

Lemma load_directory_newline_witness :
  load_directory 3 newline_directory two_lines (fun _ => ret tt)
  = (EvPrint "Loading run"
       :: replicate 3 (EvRead (os_path_join (glob_directory two_lines)
                                 ("run" ++ "-0.txt"))),
     Diverge).
Proof.
  apply (load_directory_newline 3 newline_directory two_lines "run" [] [1; 2]%float);
    reflexivity.
Defined.

(** ** When a turn of [summarize_directory] fails *)

Section Failures.
Context {A : Type} `{Scalar A}.
Implicit Types (w : world A) (log : list (event A)) (ev : event A).



(** A run file [base-0.txt] that [glob] lists but that cannot be opened
    (it is unreadable, a directory, or gone) is no error for
    [load_results], which returns an empty array; [aggregate_results]
    then fails on it, because a 1-D array has no axis 1, and
    [summarize_directory] raises without writing a file. *)
Theorem summarize_directory_no_runs fuel w directory output_directory base rest e :
  let d := glob_directory directory in
  let pathname := os_path_join d (base ++ "-0.txt") in
  has_magic d = false ->
  plain d = true -> plain base = true -> has_char "/" base = false ->
  glob1 w d = (base ++ "-0.txt") :: rest ->
  loadtxt_error (files w !! pathname) = Some e -> is_IOError e = true ->
  1 <= fuel ->
  summarize_directory fuel w directory output_directory
  = ([EvPrint ("Loading " ++ base); EvRead pathname; EvPrint "Loaded 0 runs";
      EvYield base []],
     Raise AxisError).
Proof.
  intros d pathname Hmagic Hd Hbase Hslash Hglob He Hio Hfuel.
  destruct (run0_pattern w d base Hd Hbase Hslash) as (Hjoin & Hbn & Hfind & Hformat).
  fold pathname in Hjoin. rewrite <- Hjoin in Hbn, Hformat.
  assert (Hload : load_results fuel w (re_sub_run_number pathname)
                  = ([EvRead pathname; EvPrint "Loaded 0 runs"], Ret [])).
  { apply (load_results_stops fuel w _ [] pathname e).
    - intros i path run Hi. rewrite lookup_nil in Hi. discriminate.
    - cbn [length]. rewrite (Hformat 0), Hjoin. reflexivity.
    - exact He.
    - exact Hio.
    - simpl. lia. }
  unfold summarize_directory, load_directory. fold d.
  rewrite (glob_iglob_run0 w directory Hmagic). fold d. rewrite Hglob.
  cbn [map for_each]. fold pathname.
  unfold load_directory_item. rewrite Hbn, Hfind, Hload. reflexivity.
Qed.

End Failures.


Lemma summarize_directory_no_runs_witness :
  summarize_directory 5 locked_first "d" None
  = ([EvPrint "Loading run"; EvRead "d/run-0.txt"; EvPrint "Loaded 0 runs";
      EvYield "run" []],
     Raise AxisError).
Proof.
  apply (summarize_directory_no_runs 5 locked_first "d" None "run" []
           PermissionError);
    try reflexivity.
  lia.
Defined.

(** ** Time steps *)

Section TimeSteps.
Context {A : Type} `{Scalar A}.
Implicit Types (a : list (list A)) (row : list A) (t i k : nat).

(** At the first time step the cumulative sum of a run is its value, so
    the cumulative standard error starts with the same number as the
    standard error, in whatever arithmetic the arrays hold. *)
Theorem aggregate_results_first_step (results : list (list A)) m s c :
  aggregate_results results = Ret (m, s, c) -> c !! 0 = s !! 0.
Proof.
  destruct results as [|row results]; [discriminate|].
  unfold aggregate_results.
  destruct (rectangular (length row) (row :: results)) eqn:Hrect; [|discriminate].
  intros [= <- <- <-]. apply rectangular_Forall in Hrect.
  change (accumulate row :: np_cumsum1 results) with (np_cumsum1 (row :: results)).
  set (a := row :: results) in *.
  pose proof (np_cumsum1_rectangular _ _ Hrect) as Hcum.
  destruct (length row) as [|t] eqn:Ht.
  - rewrite !list_lookup_fmap.
    rewrite (nil_length_inv _ (np_std0_length 0 _ Hcum)),
      (nil_length_inv _ (np_std0_length 0 _ Hrect)). reflexivity.
  - rewrite !list_lookup_fmap.
    rewrite (np_std0_lookup (S t) _ 0 Hcum ltac:(lia)),
      (np_std0_lookup (S t) _ 0 Hrect ltac:(lia)).
    rewrite (across_runs_cumsum (S t) _ 0 Hrect ltac:(lia)). reflexivity.
Qed.

Lemma list_eq_lookup {X} (l l' : list X) n :
  length l = n -> length l' = n ->
  (forall i, i < n -> l !! i = l' !! i) -> l = l'.
Proof.
  intros Hl Hl' Hall. apply list_eq. intros i.
  destruct (decide (i < n)) as [Hi|Hi]; [apply Hall, Hi|].
  rewrite !lookup_ge_None_2 by lia. reflexivity.
Qed.

Lemma across_runs_take a i k :
  i < k -> across_runs i (map (take k) a) = across_runs i a.
Proof.
  intros Hi. unfold across_runs. rewrite map_map. apply map_ext. intros row.
  rewrite !nth_lookup, lookup_take_lt by exact Hi. reflexivity.
Qed.

Lemma cumulative_sum_take row i k :
  i < k -> cumulative_sum i (take k row) = cumulative_sum i row.
Proof.
  intros Hi. unfold cumulative_sum.
  destruct k as [|k]; [lia|]. destruct row as [|x row]; [reflexivity|].
  simpl. rewrite take_take. f_equal. f_equal. lia.
Qed.

Lemma take_rectangular t a k :
  Forall (fun row => length row = t) a ->
  Forall (fun row => length row = k `min` t) (map (take k) a).
Proof.
  intros Hall. rewrite Forall_map. eapply Forall_impl; [exact Hall|].
  intros row Hrow; simpl in Hrow |- *. rewrite length_take. lia.
Qed.

(** The statistics of the first [k] time steps do not depend on what
    the runs hold after them: aggregating the runs cut after [k] steps
    gives the first [k] entries of the three outputs for the whole
    runs, the cumulative one included, in whatever arithmetic.  The
    case [k = 1] is left out: an array with a single column is summed
    along axis 0 as one contiguous sum, for which NumPy may group the
    terms differently. *)
Theorem aggregate_results_prefix (results : list (list A)) m s c k :
  k <> 1 ->
  aggregate_results results = Ret (m, s, c) ->
  aggregate_results (map (take k) results) = Ret (take k m, take k s, take k c).
Proof.
  destruct results as [|row results]; [discriminate|].
  intros _ Hagg.
  assert (Hrect : rectangular (length row) (row :: results) = true).
  { unfold aggregate_results in Hagg.
    destruct (rectangular (length row) (row :: results)); [reflexivity|discriminate]. }
  rewrite (aggregate_results_rectangular (length row)) in Hagg
    by (try discriminate; exact Hrect).
  injection Hagg as <- <- <-.
  apply rectangular_Forall in Hrect.
  set (t := length row) in *. set (a := row :: results) in *.
  pose proof (take_rectangular t a k Hrect) as Htake.
  pose proof (np_cumsum1_rectangular _ _ Hrect) as Hcum.
  pose proof (np_cumsum1_rectangular _ _ Htake) as Hcumtake.
  rewrite (aggregate_results_rectangular (k `min` t)).
  2:{ subst a. discriminate. }
  2:{ apply rectangular_Forall, Htake. }
  rewrite length_map.
  f_equal. f_equal; [f_equal|].
  - apply (list_eq_lookup _ _ (k `min` t)).
    + apply np_mean0_length, Htake.
    + rewrite length_take, (np_mean0_length _ _ Hrect). reflexivity.
    + intros i Hi.
      rewrite lookup_take_lt by lia.
      rewrite (np_mean0_lookup _ _ i Htake Hi), (np_mean0_lookup _ _ i Hrect) by lia.
      rewrite across_runs_take by lia. reflexivity.
  - apply (list_eq_lookup _ _ (k `min` t)).
    + rewrite length_map. apply np_std0_length, Htake.
    + rewrite length_take, length_map, (np_std0_length _ _ Hrect). reflexivity.
    + intros i Hi.
      rewrite lookup_take_lt by lia. rewrite !list_lookup_fmap.
      rewrite (np_std0_lookup _ _ i Htake Hi), (np_std0_lookup _ _ i Hrect) by lia.
      rewrite across_runs_take by lia. reflexivity.
  - apply (list_eq_lookup _ _ (k `min` t)).
    + rewrite length_map. apply np_std0_length, Hcumtake.
    + rewrite length_take, length_map, (np_std0_length _ _ Hcum). reflexivity.
    + intros i Hi.
      rewrite lookup_take_lt by lia. rewrite !list_lookup_fmap.
      rewrite (np_std0_lookup _ _ i Hcumtake Hi), (np_std0_lookup _ _ i Hcum) by lia.
      rewrite (across_runs_cumsum _ _ i Htake Hi), (across_runs_cumsum t _ i Hrect)
        by lia.
      rewrite map_map. f_equal. f_equal. f_equal.
      apply map_ext. intros r. apply cumulative_sum_take. lia.
Qed.

End TimeSteps.

Lemma aggregate_results_first_step_witness :
  [0x1.6a09e667f3bccp-1; 0x1.c48c6001f0abfp+0]%float !! 0
  = [0x1.6a09e667f3bccp-1; 0x1.0f876ccdf6cd9p+0]%float !! 0.
Proof.
  apply (aggregate_results_first_step [[1; 2]; [3; 5]]%float [2; 3.5]%float).
  vm_compute. reflexivity.
Defined.

Lemma aggregate_results_prefix_witness :
  aggregate_results (map (take 2) [curve_mean; curve_mean])
  = Ret (take 2 curve_mean, take 2 (replicate 12 0%float),
         take 2 (replicate 12 0%float)).
Proof.
  apply (aggregate_results_prefix [curve_mean; curve_mean]).
  - lia.
  - vm_compute. reflexivity.
Defined.

(** ** Plotting a curve *)

Section PlotFacts.
Context {A : Type} `{Scalar A}.
Variable py : pyplot A.
Implicit Types (mean stderr : list A) (label : list ascii) (above : bool).

Lemma np_broadcast_same (f : A -> A -> A) (a b : list A) :
  length a = length b -> np_broadcast f a b = Ret (zip_with f a b).
Proof. intros Hlen. unfold np_broadcast. rewrite Hlen, Nat.eqb_refl. reflexivity. Qed.

(** The sample the label is attached to: twenty before the end, which
    for fewer than twenty samples is counted from the end again. *)
Lemma np_getitem_label (a : list A) :
  10 <= length a ->
  let n := length a in
  exists x, a !! (if 20 <=? n then n - 20 else 2 * n - 20) = Some x
            /\ np_getitem a (Z.of_nat n - 20) = Ret x.
Proof.
  intros Hlen n. unfold np_getitem. fold n.
  destruct (20 <=? n) eqn:Hn.
  - apply Nat.leb_le in Hn.
    destruct (lookup_lt_is_Some_2 a (n - 20) ltac:(lia)) as [x Hx].
    exists x. split; [exact Hx|].
    rewrite (proj2 (Z.ltb_ge _ _)) by lia.
    rewrite (proj2 (Z.leb_le _ _)), (proj2 (Z.ltb_lt _ _)) by lia. simpl.
    replace (Z.to_nat (Z.of_nat n - 20)) with (n - 20) by lia.
    rewrite Hx. reflexivity.
  - apply Nat.leb_gt in Hn.
    destruct (lookup_lt_is_Some_2 a (2 * n - 20) ltac:(lia)) as [x Hx].
    exists x. split; [exact Hx|].
    rewrite (proj2 (Z.ltb_lt _ _)) by lia.
    rewrite (proj2 (Z.leb_le _ _)), (proj2 (Z.ltb_lt _ _)) by lia. simpl.
    replace (Z.to_nat (Z.of_nat n - 20 + Z.of_nat n)) with (2 * n - 20) by lia.
    rewrite Hx. reflexivity.
Qed.

Lemma np_getitem_short (a : list A) :
  length a < 10 -> np_getitem a (Z.of_nat (length a) - 20) = Raise IndexError.
Proof.
  intros Hlen. unfold np_getitem.
  rewrite (proj2 (Z.ltb_lt _ _)) by lia.
  rewrite (proj2 (Z.leb_gt _ _)) by lia. reflexivity.
Qed.

Lemma drawing_bind_compute {R S} (x : R) (k : R -> drawing A S) :
  drawing_bind (compute (Ret x)) k = k x.
Proof. unfold compute, drawing_bind. destruct (k x). reflexivity. Qed.

Lemma drawing_bind_plt {S} (call : plot_call A) (k : unit -> drawing A S) :
  call_error py call = None ->
  drawing_bind (plt py call) k = (call :: (k tt).1, (k tt).2).
Proof. intros Hcall. unfold plt, drawing_bind. rewrite Hcall. destruct (k tt). reflexivity. Qed.

(** [plot_results] on a mean and a standard error of one length: the
    band and the line, then the two samples, then the label. *)
Lemma plot_results_equal_lengths mean stderr label above :
  length stderr = length mean ->
  let twice := map (multiply (of_count 2)) stderr in
  let xposition := (Z.of_nat (length mean) - 20)%Z in
  plot_results py mean stderr label above
  = drawing_bind
      (plt py (FillBetween (seq 0 (length mean))
                 (zip_with add mean twice) (zip_with subtract mean twice)))
      (fun _ =>
         drawing_bind (plt py (Plot mean))
           (fun _ =>
              drawing_bind (compute (np_getitem mean xposition))
                (fun m =>
                   drawing_bind (compute (np_getitem stderr xposition))
                     (fun s =>
                        let '(yposition, va) :=
                          if above
                          then (add m (multiply two_and_a_half s), Bottom)
                          else (subtract m (multiply two_and_a_half s), Top) in
                        plt py (Text xposition yposition label va))))).
Proof.
  intros Hlen twice xposition. unfold plot_results.
  rewrite !np_broadcast_same by (rewrite length_map; lia).
  rewrite !drawing_bind_compute. reflexivity.
Qed.

(** With at least ten samples, and a standard error of the same length,
    [plot_results] draws the band of two standard errors around the
    mean, then the mean, then the label.  The label is anchored at
    [x = n - 20]; its height is read from the sample with that index,
    which for fewer than twenty samples is negative and counts from
    the end: the sample [2n - 20]. *)
Theorem plot_results_label mean stderr label above :
  length stderr = length mean -> 10 <= length mean ->
  (forall c, call_error py c = None) ->
  let n := length mean in
  let j := if 20 <=? n then n - 20 else 2 * n - 20 in
  let twice := map (multiply (of_count 2)) stderr in
  exists m s,
    mean !! j = Some m /\ stderr !! j = Some s
    /\ plot_results py mean stderr label above
       = ([FillBetween (seq 0 n) (zip_with add mean twice)
             (zip_with subtract mean twice);
           Plot mean;
           Text (Z.of_nat n - 20)
             (if above then add m (multiply two_and_a_half s)
              else subtract m (multiply two_and_a_half s))
             label (if above then Bottom else Top)],
          Ret tt).
Proof.
  intros Hlen Hn Hpy n j twice.
  destruct (np_getitem_label mean Hn) as (m & Hm & Hgetm).
  destruct (np_getitem_label stderr ltac:(lia)) as (s & Hs & Hgets).
  rewrite Hlen in Hs, Hgets. fold n in Hm, Hs, Hgetm, Hgets. fold j in Hm, Hs.
  exists m, s. split; [exact Hm|]. split; [exact Hs|].
  rewrite (plot_results_equal_lengths mean stderr label above Hlen).
  fold n twice. rewrite Hgetm, Hgets.
  rewrite !drawing_bind_plt, !drawing_bind_compute by apply Hpy.
  unfold plt. destruct above; rewrite Hpy; reflexivity.
Qed.

(** With fewer than ten samples the index [n - 20] is out of bounds:
    [plot_results] never returns and never places the label, and when
    matplotlib accepts the band and the line, they are drawn before
    the [IndexError] is raised. *)
Theorem plot_results_too_short mean stderr label above :
  length stderr = length mean -> length mean < 10 ->
  let run := plot_results py mean stderr label above in
  let twice := map (multiply (of_count 2)) stderr in
  (exists e, run.2 = Raise e)
  /\ (forall x y s va, Text x y s va ∉ run.1)
  /\ ((forall c, call_error py c = None) ->
      run = ([FillBetween (seq 0 (length mean)) (zip_with add mean twice)
                (zip_with subtract mean twice);
              Plot mean],
             Raise IndexError)).
Proof.
  intros Hlen Hn run twice. subst run.
  rewrite (plot_results_equal_lengths mean stderr label above Hlen).
  fold twice. rewrite (np_getitem_short mean Hn). unfold plt, compute.
  destruct (call_error py (FillBetween _ _ _)) as [e|] eqn:Hfill; cbn [drawing_bind].
  { split; [eauto|]. split; [intros x y s va Hin; inversion Hin|].
    intros Hpy. rewrite Hpy in Hfill. discriminate. }
  destruct (call_error py (Plot mean)) as [e|] eqn:Hplot; cbn [drawing_bind app].
  { split; [eauto|]. split.
    - intros x y s va Hin. apply list_elem_of_singleton in Hin. discriminate.
    - intros Hpy. rewrite Hpy in Hplot. discriminate. }
  split; [eauto|]. split; [|reflexivity].
  intros x y s va Hin.
  apply elem_of_cons in Hin as [Hin|Hin]; [discriminate|].
  apply list_elem_of_singleton in Hin. discriminate.
Qed.

(** A mean and a standard error of different lengths, neither of them
    a single number, cannot be broadcast: [plot_results] raises
    [ValueError] before anything is drawn. *)
Theorem plot_results_mismatch mean stderr label above :
  length mean <> length stderr -> length mean <> 1 -> length stderr <> 1 ->
  plot_results py mean stderr label above = ([], Raise ValueError).
Proof.
  intros Hlen Hmean Hstderr. unfold plot_results, np_broadcast.
  rewrite length_map.
  rewrite (proj2 (Nat.eqb_neq _ _) Hlen).
  destruct mean as [|x [|x' mean]], stderr as [|y [|y' stderr]];
    simpl in *; try congruence; reflexivity.
Qed.

(** The mean and the standard error that [aggregate_results] returns
    have one length, so [plot_results] draws them without a
    broadcasting error; it returns when the runs have at least ten
    time steps and raises [IndexError] when they have fewer. *)
Theorem plot_results_aggregate (row : list A) (rest : list (list A)) m s c
    label above :
  aggregate_results (row :: rest) = Ret (m, s, c) ->
  (forall call, call_error py call = None) ->
  (plot_results py m s label above).2
  = if 10 <=? length row then Ret tt else Raise IndexError.
Proof.
  intros Hagg Hpy.
  destruct (aggregate_results_Ret _ _ _ _ Hagg) as (_ & Hs & _).
  assert (Hm : length m = length row).
  { unfold aggregate_results in Hagg.
    destruct (rectangular (length row) (row :: rest)) eqn:Hrect; [|discriminate].
    injection Hagg as <- _ _.
    apply np_mean0_length, rectangular_Forall, Hrect. }
  rewrite (plot_results_equal_lengths m s label above Hs), <- Hm.
  rewrite !drawing_bind_plt by apply Hpy. cbn [snd].
  destruct (10 <=? length m) eqn:Hn.
  - apply Nat.leb_le in Hn.
    destruct (np_getitem_label m Hn) as (x & _ & ->).
    destruct (np_getitem_label s ltac:(lia)) as (y & _ & Hy).
    rewrite Hs in Hy. rewrite Hy, !drawing_bind_compute.
    unfold plt. destruct above; rewrite Hpy; reflexivity.
  - apply Nat.leb_gt in Hn.
    rewrite (np_getitem_short m Hn). reflexivity.
Qed.

End PlotFacts.

Lemma plot_results_label_witness :
  exists m s,
    curve_mean !! 4 = Some m /\ curve_stderr !! 4 = Some s
    /\ plot_results accepting curve_mean curve_stderr "runs" true
       = ([FillBetween (seq 0 12)
             (zip_with add curve_mean (map (multiply (of_count 2)) curve_stderr))
             (zip_with subtract curve_mean
                (map (multiply (of_count 2)) curve_stderr));
           Plot curve_mean;
           Text (-8) (add m (multiply two_and_a_half s)) "runs" Bottom],
          Ret tt).
Proof.
  refine (plot_results_label accepting curve_mean curve_stderr "runs" true _ _ _).
  - reflexivity.
  - vm_compute. lia.
  - intros c. reflexivity.
Defined.

Lemma plot_results_too_short_witness :
  (exists e, (plot_results accepting short_mean short_stderr "runs" false).2 = Raise e)
  /\ (forall x y s va,
        Text x y s va ∉ (plot_results accepting short_mean short_stderr "runs" false).1)
  /\ plot_results accepting short_mean short_stderr "runs" false
     = ([FillBetween (seq 0 3)
           (zip_with add short_mean (map (multiply (of_count 2)) short_stderr))
           (zip_with subtract short_mean
              (map (multiply (of_count 2)) short_stderr));
         Plot short_mean],
        Raise IndexError).
Proof.
  destruct (plot_results_too_short accepting short_mean short_stderr "runs" false
              eq_refl ltac:(vm_compute; lia)) as (Hraise & Htext & Hcalls).
  split; [exact Hraise|]. split; [exact Htext|].
  apply Hcalls. intros c. reflexivity.
Defined.

Lemma plot_results_mismatch_witness :
  plot_results accepting short_mean (take 2 curve_stderr) "runs" false
  = ([], Raise ValueError).
Proof.
  apply (plot_results_mismatch accepting short_mean (take 2 curve_stderr));
    vm_compute; lia.
Defined.

Lemma plot_results_aggregate_witness :
  (plot_results accepting curve_mean (replicate 12 0%float) "runs" true).2
  = if 10 <=? length curve_mean then Ret tt else Raise IndexError.
Proof.
  apply (plot_results_aggregate accepting curve_mean [curve_mean]
           curve_mean (replicate 12 0%float) (replicate 12 0%float)).
  - vm_compute. reflexivity.
  - intros call. reflexivity.
Defined.
